(** * Stage 2 of the gun-violence scraper: field extractor and fetch session

    A shallow embedding of [scripts/stage2_extractor.py] and
    [scripts/stage2_session.py].

    Conventions of the embedding.
    - A Python [str] is a [string] of code points below 256 (Latin-1 text);
      the character classes ([\s], [\w], [str.isspace], [str.lower]) are
      those of Python 3 on that range, where they are wider than in ASCII.
    - The interpreter is Python 3.8 or later: [asyncio.CancelledError] derives
      from [BaseException], so that [except Exception] lets it through.
    - [scraper.get] of [cfscrape] is the [get] of a [requests.Session]: what
      it returns is a [requests.Response].
    - A call that can raise returns a [result]: [Ret v] or [Raise e].
    - A [dict] is an association list in insertion order, as Python iterates it.
    - The HTML tree that BeautifulSoup builds is represented by what the
      extractor selects from it (see [soup] and [div]).
    - What the interpreter and numpy compute on floats ([float(..)],
      [math.log], [**], [np.ceil], [int(..)]) is not part of the scripts: it is
      the interface [Numeric].  A statement holds for each instance, unless
      it says which values of the interface it is about. *)

From Stdlib Require Import List String Ascii ZArith Lia Bool.
From Stdlib Require Import Sorting.Sorted Sorting.Permutation Floats.
Import ListNotations.
Open Scope string_scope.

(** ** Exceptions and results *)

(** The exception classes the two scripts raise, let through or test for.
    [ClientResponseError code] of aiohttp is the class
    [get_fields_from_incident_url] tests with [isinstance];
    [ClientOSError errno], [CancelledError] and [TimeoutError] are those
    [_status_from_exception] tests; [HTTPError status] is the
    [requests.exceptions.HTTPError] that [raise_for_status] of a
    [requests.Response] raises.  [OtherError] stands for any further class
    derived from [Exception]. *)
Inductive exception : Type :=
| AssertionError
| AttributeError
| KeyError
| ValueError
| OverflowError
| StopIteration
| NotImplementedError
| CancelledError
| TimeoutError
| ClientOSError (errno : Z)
| ClientResponseError (code : Z)
| HTTPError (status : Z)
| OtherError (class_name : string).

(** [isinstance(exc, Exception)]: what an [except Exception] clause catches.
    [asyncio.CancelledError] is a [BaseException] that is no [Exception]. *)
Definition is_Exception (exc : exception) : bool :=
  match exc with
  | CancelledError => false
  | _ => true
  end.

Inductive result (A : Type) : Type :=
| Ret (a : A)
| Raise (e : exception).
Arguments Ret {A} a.
Arguments Raise {A} e.

Definition bind {A B : Type} (r : result A) (k : A -> result B) : result B :=
  match r with
  | Ret a => k a
  | Raise e => Raise e
  end.

Declare Scope py_scope.
Delimit Scope py_scope with py.
Notation "x <- r ;; k" := (bind r (fun x => k))
  (at level 61, r at next level, right associativity) : py_scope.
Notation "'assert' b ;; k" := (if b then k else Raise AssertionError)
  (at level 61, b at next level, right associativity) : py_scope.
Open Scope py_scope.

(** [for x in xs: acc = body acc x], stopping at the first exception. *)
Fixpoint for_each {A S : Type} (xs : list A) (body : S -> A -> result S)
  (acc : S) : result S :=
  match xs with
  | [] => Ret acc
  | x :: xs' => acc' <- body acc x ;; for_each xs' body acc'
  end.

(** A generator run to its end: the yields of every iteration, in order. *)
Fixpoint for_yield {A B : Type} (xs : list A) (body : A -> result (list B))
  : result (list B) :=
  match xs with
  | [] => Ret []
  | x :: xs' => ys <- body x ;; zs <- for_yield xs' body ;; Ret (ys ++ zs)%list
  end.

(** ** Python string primitives *)

Module Py.

(** [c.isspace()], which is also [\s] of a [str] pattern and what
    [str.strip()] removes: the ASCII white space with the four separators
    U+001C to U+001F, the next-line control U+0085 and the no-break space
    U+00A0. *)
Definition is_space (c : ascii) : bool :=
  let n := nat_of_ascii c in
  ((9 <=? n) && (n <=? 13) || (28 <=? n) && (n <=? 32)
   || (n =? 133) || (n =? 160))%nat.

(** The white space that [int(s)] and [float(s)] skip around a number: the
    characters above U+007F that [isspace] holds of are taken for a blank,
    then the ASCII white space of C is skipped, which leaves out U+001C to
    U+001F. *)
Definition is_number_space (c : ascii) : bool :=
  let n := nat_of_ascii c in
  ((9 <=? n) && (n <=? 13) || (n =? 32) || (n =? 133) || (n =? 160))%nat.

Definition is_digit (c : ascii) : bool :=
  let n := nat_of_ascii c in ((48 <=? n) && (n <=? 57))%nat.

Definition is_upper (c : ascii) : bool :=
  let n := nat_of_ascii c in ((65 <=? n) && (n <=? 90))%nat.

Definition is_lower (c : ascii) : bool :=
  let n := nat_of_ascii c in ((97 <=? n) && (n <=? 122))%nat.

(** The characters above U+007F that [isalnum] holds of: the letters of
    Latin-1 (ordinal indicators, micro sign, U+00C0 to U+00FF without the
    signs of multiplication and division), the superscript digits and the
    three fractions. *)
Definition is_latin1_alnum (c : ascii) : bool :=
  let n := nat_of_ascii c in
  ((n =? 170) || (n =? 178) || (n =? 179) || (n =? 181) || (n =? 185)
   || (n =? 186) || (188 <=? n) && (n <=? 190)
   || (192 <=? n) && (n <=? 214) || (216 <=? n) && (n <=? 246)
   || (248 <=? n))%nat.

(** [\w] of a [str] pattern: [c.isalnum()] or the underscore. *)
Definition is_word (c : ascii) : bool :=
  is_digit c || is_upper c || is_lower c || Ascii.eqb c "_"
  || is_latin1_alnum c.

(** The capital letters of Latin-1 above U+007F: U+00C0 to U+00DE without
    the multiplication sign. *)
Definition is_latin1_upper (c : ascii) : bool :=
  let n := nat_of_ascii c in
  ((192 <=? n) && (n <=? 222) && negb (n =? 215))%nat.

Definition lower_char (c : ascii) : ascii :=
  if is_upper c || is_latin1_upper c
  then ascii_of_nat (nat_of_ascii c + 32) else c.

(** The capital of an ASCII letter; no pattern of the scripts has a
    character above U+007F, and no such character folds to an ASCII one. *)
Definition upper_char (c : ascii) : ascii :=
  if is_lower c then ascii_of_nat (nat_of_ascii c - 32) else c.

(** [s.lower()] *)
Fixpoint lower (s : string) : string :=
  match s with
  | EmptyString => EmptyString
  | String c s' => String (lower_char c) (lower s')
  end.

(** [s.replace(old, new)] for one-character [old] and [new]. *)
Fixpoint replace (old new : ascii) (s : string) : string :=
  match s with
  | EmptyString => EmptyString
  | String c s' =>
      String (if Ascii.eqb c old then new else c) (replace old new s')
  end.

(** [sub in s] *)
Fixpoint contains (sub s : string) : bool :=
  prefix sub s ||
  match s with
  | EmptyString => false
  | String _ s' => contains sub s'
  end.

(** [s.find(sub)]: the lowest index where [sub] starts, [-1] if there is none. *)
Fixpoint find_from (sub s : string) (i : Z) : Z :=
  if prefix sub s then i
  else match s with
       | EmptyString => (-1)%Z
       | String _ s' => find_from sub s' (i + 1)%Z
       end.

Definition find (sub s : string) : Z := find_from sub s 0.

Fixpoint take (n : nat) (s : string) : string :=
  match n, s with
  | S n', String c s' => String c (take n' s')
  | _, _ => EmptyString
  end.

Fixpoint drop (n : nat) (s : string) : string :=
  match n, s with
  | S n', String _ s' => drop n' s'
  | _, _ => s
  end.

(** [s[:i]]; a negative [i] counts from the end. *)
Definition slice_to (s : string) (i : Z) : string :=
  if (i <? 0)%Z
  then take (Z.to_nat (Z.max 0 (Z.of_nat (length s) + i))) s
  else take (Z.to_nat i) s.

(** [s[i:]] for [i >= 0]. *)
Definition slice_from (s : string) (i : Z) : string := drop (Z.to_nat i) s.

(** [sep.join(items)] *)
Fixpoint join (sep : string) (items : list string) : string :=
  match items with
  | [] => EmptyString
  | [x] => x
  | x :: rest => x ++ sep ++ join sep rest
  end.

Fixpoint lstrip (s : string) : string :=
  match s with
  | String c s' => if is_space c then lstrip s' else s
  | EmptyString => EmptyString
  end.

Fixpoint rstrip (s : string) : string :=
  match s with
  | EmptyString => EmptyString
  | String c s' =>
      match rstrip s' with
      | EmptyString => if is_space c then EmptyString else String c EmptyString
      | t => String c t
      end
  end.

(** [s.strip()] *)
Definition strip (s : string) : string := rstrip (lstrip s).

(** The same with the white space of numbers. *)
Fixpoint number_lstrip (s : string) : string :=
  match s with
  | String c s' => if is_number_space c then number_lstrip s' else s
  | EmptyString => EmptyString
  end.

Fixpoint number_rstrip (s : string) : string :=
  match s with
  | EmptyString => EmptyString
  | String c s' =>
      match number_rstrip s' with
      | EmptyString =>
          if is_number_space c then EmptyString else String c EmptyString
      | t => String c t
      end
  end.

Definition number_strip (s : string) : string :=
  number_rstrip (number_lstrip s).

Fixpoint rev_append (s acc : string) : string :=
  match s with
  | EmptyString => acc
  | String c s' => rev_append s' (String c acc)
  end.

Definition rev (s : string) : string := rev_append s EmptyString.

(** [s.endswith(suffix)] *)
Definition endswith (s suffix : string) : bool :=
  prefix (rev suffix) (rev s).

Fixpoint all_chars (p : ascii -> bool) (s : string) : bool :=
  match s with
  | EmptyString => true
  | String c s' => p c && all_chars p s'
  end.

(** The value of a run of decimal digits, most significant first. *)
Fixpoint digits_value (s : string) (acc : Z) : Z :=
  match s with
  | EmptyString => acc
  | String c s' =>
      digits_value s' (10 * acc + Z.of_nat (nat_of_ascii c - 48))%Z
  end.

(** Digits with single underscores between them, as [int(..)] accepts:
    [after_digit] tells whether the previous character was a digit. *)
Fixpoint digits_with_underscores (s : string) (after_digit : bool)
  (acc : Z) : option Z :=
  match s with
  | EmptyString => if after_digit then Some acc else None
  | String c s' =>
      if is_digit c
      then digits_with_underscores s' true
             (10 * acc + Z.of_nat (nat_of_ascii c - 48))%Z
      else if Ascii.eqb c "_" && after_digit
      then match s' with
           | String d _ =>
               if is_digit d then digits_with_underscores s' false acc
               else None
           | EmptyString => None
           end
      else None
  end.

(** How many digits there are in a string. *)
Fixpoint count_digits (s : string) : Z :=
  match s with
  | EmptyString => 0%Z
  | String c s' => ((if is_digit c then 1 else 0) + count_digits s')%Z
  end.

(** [sys.get_int_max_str_digits()], as the interpreter starts with it. *)
Definition int_max_str_digits : Z := 4300.

(** [int(s)] on a string, base 10: surrounding white space, an optional sign,
    digits with optional single underscores between them, and no more
    digits than the interpreter converts. *)
Definition int (s : string) : result Z :=
  let t := number_strip s in
  let '(neg, body) :=
    match t with
    | String "-" u => (true, u)
    | String "+" u => (false, u)
    | _ => (false, t)
    end in
  match digits_with_underscores body false 0 with
  | Some n =>
      if (int_max_str_digits <? count_digits body)%Z then Raise ValueError
      else Ret (if neg then (- n)%Z else n)
  | None => Raise ValueError
  end.

(** [str(n)] for an integer. *)
Fixpoint pos_digits (fuel : nat) (n : Z) (acc : string) : string :=
  match fuel with
  | O => acc
  | S fuel' =>
      let acc' := String (ascii_of_nat (48 + Z.to_nat (n mod 10))) acc in
      if (n <? 10)%Z then acc' else pos_digits fuel' (n / 10)%Z acc'
  end.

Definition str_int (n : Z) : string :=
  if (n <? 0)%Z
  then String "-" (pos_digits (S (Z.to_nat (Z.log2 (- n)))) (- n)%Z EmptyString)
  else pos_digits (S (Z.to_nat (Z.log2 n))) n EmptyString.

End Py.

(** [str(x)]: the conversion [_stringify_dict] maps over keys and values. *)
Class Str (A : Type) := str : A -> string.
#[export] Instance Str_string : Str string := fun s => s.
#[export] Instance Str_Z : Str Z := Py.str_int.


(** Keys of a [dict]: the equality test behind [in] and [d[k] = v]. *)
Class Key (K : Type) := key_eqb : K -> K -> bool.
#[export] Instance Key_string : Key string := String.eqb.
#[export] Instance Key_Z : Key Z := Z.eqb.

Section Dict.
Context {K V : Type} `{Key K}.

(** [k in d] *)
Definition dict_mem (k : K) (d : list (K * V)) : bool :=
  existsb (fun kv => key_eqb (fst kv) k) d.

(** [d.get(k)] *)
Fixpoint dict_get (k : K) (d : list (K * V)) : option V :=
  match d with
  | [] => None
  | (k', v) :: d' => if key_eqb k' k then Some v else dict_get k d'
  end.

(** [d[k] = v]: a present key keeps its place, a new one goes last. *)
Fixpoint dict_set (k : K) (v : V) (d : list (K * V)) : list (K * V) :=
  match d with
  | [] => [(k, v)]
  | (k', v') :: d' =>
      if key_eqb k' k then (k', v) :: d' else (k', v') :: dict_set k v d'
  end.
End Dict.

(** ** Regular expressions

    The fragment of Python's [re] the extractor uses, matched by backtracking
    in Python's order: alternatives left to right, repetitions greedy.  The
    scripts' patterns repeat single-character items only, which is what
    [Star] covers. *)

Module Re.

Inductive regex : Type :=
| Eps
| One (p : ascii -> bool)      (* one character of a class *)
| Star (p : ascii -> bool)     (* [p*], greedy *)
| Seq (r1 r2 : regex)
| Alt (r1 r2 : regex)
| Group (n : nat) (r : regex)  (* the [n]-th parenthesis *)
| Bol                          (* [^] *)
| Eol                          (* [$] *)
| WordB.                       (* [\b] *)

Definition captures := list (nat * string).

(** What remains to be matched: called with the character before the current
    position, the rest of the subject and the groups captured so far. *)
Definition cont := option ascii -> string -> captures -> option captures.

Fixpoint star (p : ascii -> bool) (prev : option ascii) (s : string)
  (caps : captures) (k : cont) : option captures :=
  match s with
  | String c s' =>
      if p c
      then match star p (Some c) s' caps k with
           | Some r => Some r
           | None => k prev s caps
           end
      else k prev s caps
  | EmptyString => k prev s caps
  end.

Definition is_word_opt (c : option ascii) : bool :=
  match c with
  | Some c => Py.is_word c
  | None => false
  end.

Definition head (s : string) : option ascii :=
  match s with
  | String c _ => Some c
  | EmptyString => None
  end.

Definition newline : ascii := "010"%char.

Definition set_group (n : nat) (v : string) (caps : captures) : captures :=
  (n, v) :: filter (fun nv => negb (Nat.eqb (fst nv) n)) caps.

Fixpoint matches (r : regex) (prev : option ascii) (s : string)
  (caps : captures) (k : cont) : option captures :=
  match r with
  | Eps => k prev s caps
  | One p =>
      match s with
      | String c s' => if p c then k (Some c) s' caps else None
      | EmptyString => None
      end
  | Star p => star p prev s caps k
  | Seq r1 r2 =>
      matches r1 prev s caps (fun prev' s' caps' => matches r2 prev' s' caps' k)
  | Alt r1 r2 =>
      match matches r1 prev s caps k with
      | Some c => Some c
      | None => matches r2 prev s caps k
      end
  | Group n r1 =>
      matches r1 prev s caps
        (fun prev' s' caps' =>
           k prev' s' (set_group n (Py.take (length s - length s') s) caps'))
  | Bol =>
      match prev with
      | None => k prev s caps
      | Some _ => None
      end
  | Eol =>
      if String.eqb s EmptyString || String.eqb s (String newline EmptyString)
      then k prev s caps else None
  | WordB =>
      if xorb (is_word_opt prev) (is_word_opt (head s))
      then k prev s caps else None
  end.

Definition match_here (r : regex) (prev : option ascii) (s : string)
  : option captures :=
  matches r prev s [] (fun _ _ caps => Some caps).

Fixpoint search_from (r : regex) (prev : option ascii) (s : string)
  : option captures :=
  match match_here r prev s with
  | Some caps => Some caps
  | None =>
      match s with
      | String c s' => search_from r (Some c) s'
      | EmptyString => None
      end
  end.

(** [re.search(r, s)]: the leftmost match. *)
Definition search (r : regex) (s : string) : option captures :=
  search_from r None s.

(** [match.group(n)] of a group that took part in the match. *)
Definition group (n : nat) (caps : captures) : string :=
  match find (fun nv => Nat.eqb (fst nv) n) caps with
  | Some (_, v) => v
  | None => EmptyString
  end.

(** Pattern syntax. *)
Definition chr (c : ascii) : regex := One (Ascii.eqb c).
Definition any : ascii -> bool := fun c => negb (Ascii.eqb c newline).
Definition dot : regex := One any.
Definition plus (p : ascii -> bool) : regex := Seq (One p) (Star p).
Definition opt (r : regex) : regex := Alt r Eps.

Fixpoint seq (rs : list regex) : regex :=
  match rs with
  | [] => Eps
  | [r] => r
  | r :: rs' => Seq r (seq rs')
  end.

Fixpoint alts (rs : list regex) : regex :=
  match rs with
  | [] => One (fun _ => false)
  | [r] => r
  | r :: rs' => Alt r (alts rs')
  end.

(** A class under [re.I]. *)
Definition icase (p : ascii -> bool) : ascii -> bool :=
  fun c => p c || p (Py.lower_char c) || p (Py.upper_char c).

Fixpoint lit_with (f : ascii -> ascii -> bool) (s : string) : regex :=
  match s with
  | EmptyString => Eps
  | String c EmptyString => One (f c)
  | String c s' => Seq (One (f c)) (lit_with f s')
  end.

(** Literal text, and literal text under [re.I]. *)
Definition lit : string -> regex := lit_with Ascii.eqb.
Definition lit_i : string -> regex :=
  lit_with (fun c => icase (Ascii.eqb c)).

End Re.

(** ** stage2_extractor.py *)

(** The values a field holds: [None], an [int], a [float] or a [str]. *)
Inductive pyval : Type :=
| VNone
| VInt (n : Z)
| VFloat (x : float)
| VStr (s : string).

(** [Field = namedtuple('Field', ['name', 'value'])] *)
Record Field : Type := mkField { name : string; value : pyval }.

(** What the interpreter, [math] and numpy compute on floats. *)
Class Numeric : Type := {
  py_float : string -> result float;      (* [float(s)] *)
  math_log : Z -> Z -> result float;      (* [math.log(x, base)] *)
  py_pow : Z -> float -> float;           (* [base ** x] *)
  np_ceil : float -> float;               (* [np.ceil(x)] *)
  int_of_float : float -> result Z        (* [int(x)] *)
}.

(** [sorted(xs, key=key)]: a stable sort, here by insertion from the right. *)
Fixpoint insert_sorted {A : Type} (key : A -> string) (x : A) (l : list A)
  : list A :=
  match l with
  | [] => [x]
  | y :: l' =>
      if (key x <=? key y)%string then x :: l
      else y :: insert_sorted key x l'
  end.

Definition sorted {A : Type} (key : A -> string) (xs : list A) : list A :=
  fold_right (insert_sorted key) [] xs.

Definition ALL_FIELD_NAMES : list string :=
  sorted (fun s => s) [
    "latitude";
    "longitude";
    "location_description";

    "participant_type";
    "participant_name";
    "participant_age";
    "participant_age_group";
    "participant_gender";
    "participant_status";
    "participant_relationship";

    "incident_characteristics";

    "notes";

    "n_guns_involved";
    "gun_type";
    "gun_stolen";

    "sources";

    "congressional_district";
    "state_senate_district";
    "state_house_district"
  ].

Definition NIL_FIELDS : list Field :=
  map (fun name => mkField name VNone) ALL_FIELD_NAMES.

(** *** The parsed document

    [soup.select_one('#block-system-main')] is [block_system_main]: absent, or
    the [h2] headings below it in document order, each with its string and
    its parent element.  Of an element the extractor reads only the results
    of its selectors, which [div] collects. *)

Record anchor : Type := {
  a_text : string;            (* [a.text] *)
  a_href : option string      (* [a['href']], absent without the attribute *)
}.

Record div : Type := {
  spans : list string;        (* [span.text for span in div.select('span')] *)
  uls : list (list string);   (* [[li.text for li in ul.select('li')]
                                  for ul in div.select('ul')] *)
  lis : list string;          (* [li.text for li in div.select('li')] *)
  p : option string;          (* [div.select_one('p')] and its [.text] *)
  anchors : list anchor;      (* [div.select('a')] *)
  brs : list string           (* [str(br.previousSibling)
                                  for br in div.select('br')] *)
}.

Record soup : Type := {
  block_system_main : option (list (string * div))
}.

(** The request context of stage2_session.py, which the extractor reads. *)
Record Context : Type := {
  address : string;
  city_or_county : string;
  state : string
}.

Definition _find_div_with_title (title : string) (s : soup)
  : result (option div) :=
  match block_system_main s with
  | None => Raise AttributeError
  | Some headers =>
      match find (fun h => String.eqb (fst h) title) headers with
      | Some header => Ret (Some (snd header))
      | None => Ret None
      end
  end.

Definition _out_name (in_name : string) (prefix : string) : string :=
  prefix ++ Py.replace " " "_" (Py.lower in_name).

(** [apply=None]: the value stays the string it is. *)
Definition apply_None : string -> result string := fun value => Ret value.

Definition _getdict {V : Type} (lines : list string)
  (apply : string -> result V) : result (list (string * V)) :=
  for_each lines
    (fun d line =>
       if String.eqb line EmptyString then Ret d
       else
         let index := Py.find ":" line in
         assert (negb (index =? -1)%Z) ;;
         let key := Py.slice_to line index in
         let value := Py.slice_from line (index + 2) in
         assert (negb (dict_mem key d)) ;;
         value <- apply value ;;
         Ret (dict_set key value d))
    [].

(** [ds2[key][groupno] = value] on a [defaultdict(dict)]. *)
Definition ds2_set {V : Type} (key : string) (groupno : Z) (v : V)
  (ds2 : list (string * list (Z * V))) : list (string * list (Z * V)) :=
  let inner := match dict_get key ds2 with
               | Some d => d
               | None => []
               end in
  dict_set key (dict_set groupno v inner) ds2.

Definition _getdicts {V : Type} (linegroups : list (list string))
  (apply : string -> result V) : result (list (string * list (Z * V))) :=
  st <- for_each linegroups
          (fun (st : list (Z * list (string * V)) * Z) lines =>
             let '(ds, groupno) := st in
             d <- _getdict lines apply ;;
             Ret (dict_set groupno d ds, (groupno + 1)%Z))
          ([], 0%Z) ;;
  (* Swap the order of mappings. ds[0]['name'] -> ds['name'][0] *)
  Ret (fold_left
         (fun ds2 (item : Z * list (string * V)) =>
            let '(groupno, d) := item in
            fold_left (fun ds2 (kv : string * V) =>
                         ds2_set (fst kv) groupno (snd kv) ds2)
              d ds2)
         (fst st) []).

(** [fields.insert(i, x)]: at the end when [i] is past it. *)
Definition list_insert {A : Type} (i : nat) (x : A) (l : list A) : list A :=
  (firstn i l ++ x :: skipn i l)%list.

Definition name_in (n : string) (names : list string) : bool :=
  existsb (String.eqb n) names.

(** The loop of [_normalize] over [ALL_FIELD_NAMES], [i] counting up. *)
Fixpoint insert_dummies (names : list string) (i : nat)
  (field_names : list string) (fields : list Field) : list Field :=
  match names with
  | [] => fields
  | name :: names' =>
      insert_dummies names' (S i) field_names
        (if negb (name_in name field_names)
         then list_insert i (mkField name VNone) fields
         else fields)
  end.

Definition _normalize (fields : list Field) : result (list Field) :=
  (* Ensure that the fields are alphabetically ordered by field name.
     Also, add dummy ('field_name', None) fields for missing field names. *)
  let fields := sorted name fields in
  (* [next(zip( *fields))] raises StopIteration on an empty list *)
  match fields with
  | [] => Raise StopIteration
  | _ :: _ =>
      let field_names := map name fields in
      let should_be_empty :=
        filter (fun n => negb (name_in n ALL_FIELD_NAMES)) field_names in
      assert (match should_be_empty with [] => true | _ => false end) ;;
      let fields := insert_dummies ALL_FIELD_NAMES 0 field_names fields in
      assert (List.length fields =? List.length ALL_FIELD_NAMES)%nat ;;
      Ret fields
  end.

Definition _stringify_list (lst : list string) (sep : string)
  : result string :=
  let violation := find (fun item => Py.contains sep item) lst in
  assert (match violation with None => true | Some _ => false end) ;;
  Ret (Py.join sep lst).

Definition _stringify_dict {K V : Type} `{Str K} `{Str V}
  (d : list (K * V)) (insep outsep : string) : result string :=
  let keys := map (fun kv => str (fst kv)) d in
  let values := map (fun kv => str (snd kv)) d in
  let key_violation :=
    find (fun key => Py.contains insep key || Py.contains outsep key) keys in
  let value_violation :=
    find (fun value => Py.contains insep value || Py.contains outsep value)
      values in
  assert (match key_violation, value_violation with
          | None, None => true
          | _, _ => false
          end) ;;
  Ret (Py.join outsep
         (map (fun kv => Py.join insep [fst kv; snd kv])
            (combine keys values))).

(** The patterns of the extractor. *)

(** [r'^Geolocation:\s+(G),\s+(G)$'], each group [G] being [.] repeated
    zero or more times, greedily. *)
Definition geolocation_re : Re.regex :=
  Re.seq [Re.Bol; Re.lit "Geolocation:"; Re.plus Py.is_space;
          Re.Group 1 (Re.Star Re.any); Re.chr ","; Re.plus Py.is_space;
          Re.Group 2 (Re.Star Re.any); Re.Eol].

(** [r'^[0-9]+[0-9a-z-]*\b'] with [re.I] *)
Definition house_number_re : Re.regex :=
  Re.seq [Re.Bol; Re.plus (Re.icase Py.is_digit);
          Re.Star (Re.icase (fun c => Py.is_digit c || Py.is_lower c
                                      || Ascii.eqb c "-"));
          Re.WordB].

(** [r'\b(st|street|rd|road|dr|drive|blvd|boulevard|ave|avenue|hwy|highway)\.?$']
    with [re.I] *)
Definition street_suffix_re : Re.regex :=
  Re.seq [Re.WordB;
          Re.Group 1 (Re.alts (map Re.lit_i
            ["st"; "street"; "rd"; "road"; "dr"; "drive"; "blvd"; "boulevard";
             "ave"; "avenue"; "hwy"; "highway"]));
          Re.opt (Re.chr "."); Re.Eol].

(** [r'^([0-9]+)\s+guns?\s+involved.$'] *)
Definition guns_involved_re : Re.regex :=
  Re.seq [Re.Bol; Re.Group 1 (Re.plus Py.is_digit); Re.plus Py.is_space;
          Re.lit "gun"; Re.opt (Re.chr "s"); Re.plus Py.is_space;
          Re.lit "involved"; Re.dot; Re.Eol].

Definition is_match (m : option Re.captures) : bool :=
  match m with
  | Some _ => true
  | None => false
  end.

Definition describes_city_and_state (ctx : Context) (line : string) : bool :=
  Py.contains "," line && Py.endswith line (state ctx).

Definition describes_address (ctx : Context) (line : string) : bool :=
  (* The address on the incident page usually, but not always, matches the
     address on the query page. *)
  String.eqb line (address ctx)
  || is_match (Re.search house_number_re line)
  || is_match (Re.search street_suffix_re line).

(** [None], or the string. *)
Definition opt_str (v : option string) : pyval :=
  match v with
  | Some s => VStr s
  | None => VNone
  end.

(** The methods of [Stage2Extractor].  A generator method is the list of its
    yields, or the exception that ends it; [extract_fields] unpacks each
    generator whole, so the two agree. *)
Section Stage2Extractor.
Context `{Numeric}.

(** The body of the loop over the spans of the Location section. *)
Definition location_span (ctx : Context) (text : string)
  : result (list Field) :=
  if String.eqb text EmptyString then Ret []
  else
    match Re.search geolocation_re text with
    | Some m =>
        latitude <- py_float (Re.group 1 m) ;;
        longitude <- py_float (Re.group 2 m) ;;
        Ret [mkField "latitude" (VFloat latitude);
             mkField "longitude" (VFloat longitude)]
    | None =>
        if describes_city_and_state ctx text || describes_address ctx text
        then
          (* Nothing to be done. City, state, and address fields are
             already included in the stage1 dataset. *)
          Ret []
        else Ret [mkField "location_description" (VStr text)]
    end.

Definition _extract_location_fields (s : soup) (ctx : Context)
  : result (list Field) :=
  d <- _find_div_with_title "Location" s ;;
  match d with
  | None => Ret []
  | Some d => for_yield (spans d) (location_span ctx)
  end.

(** The loop shared by the participant and gun sections: one field per
    attribute label, its values keyed by group number. *)
Definition attribute_fields (prefix : string) (linegroups : list (list string))
  : result (list Field) :=
  ds2 <- _getdicts linegroups apply_None ;;
  for_yield ds2
    (fun item =>
       let field_name := _out_name (fst item) prefix in
       field_values <- _stringify_dict (snd item) "::" "||" ;;
       Ret [mkField field_name (VStr field_values)]).

Definition _extract_participant_fields (s : soup) : result (list Field) :=
  d <- _find_div_with_title "Participants" s ;;
  match d with
  | None => Ret []
  | Some d => attribute_fields "participant_" (uls d)
  end.

Definition _extract_incident_characteristics (s : soup)
  : result (option string) :=
  d <- _find_div_with_title "Incident Characteristics" s ;;
  match d with
  | None => Ret None
  | Some d => v <- _stringify_list (lis d) "||" ;; Ret (Some v)
  end.

Definition _extract_notes (s : soup) : result (option string) :=
  d <- _find_div_with_title "Notes" s ;;
  match d with
  | None => Ret None
  | Some d =>
      match p d with
      | Some text => Ret (Some text)
      | None => Raise AttributeError
      end
  end.

Definition _extract_guns_involved_fields (s : soup) : result (list Field) :=
  d <- _find_div_with_title "Guns Involved" s ;;
  match d with
  | None => Ret []
  | Some d =>
      (* n_guns_involved *)
      match p d with
      | None => Raise AttributeError
      | Some p_text =>
          match Re.search guns_involved_re p_text with
          | None => Raise AssertionError
          | Some m =>
              n_guns_involved <- Py.int (Re.group 1 m) ;;
              (* List attributes *)
              rest <- attribute_fields "gun_" (uls d) ;;
              Ret (mkField "n_guns_involved" (VInt n_guns_involved) :: rest)
          end
      end
  end.

Definition _extract_sources (s : soup) : result (option string) :=
  d <- _find_div_with_title "Sources" s ;;
  match d with
  | None => Ret None
  | Some d =>
      hrefs <- for_yield (anchors d)
                 (fun a =>
                    match a_href a with
                    | None => Raise KeyError
                    | Some href =>
                        Ret (if String.eqb (a_text a) href
                             then [href] else [])
                    end) ;;
      v <- _stringify_list hrefs "||" ;;
      Ret (Some v)
  end.

Definition _extract_district_fields (s : soup) : result (list Field) :=
  d <- _find_div_with_title "District" s ;;
  match d with
  | None => Ret []
  | Some d =>
      let lines := map Py.strip (brs d) in
      kvs <- _getdict lines Py.int ;;
      Ret (map (fun kv => mkField (_out_name (fst kv) "") (VInt (snd kv)))
             kvs)
  end.

(** The argument list that [extract_fields] builds for [_normalize].  The
    three plain calls run first, in their order; the four generators run
    when the list is built. *)
Definition produced_fields (text : soup) (ctx : Context)
  : result (list Field) :=
  incident_characteristics <- _extract_incident_characteristics text ;;
  notes <- _extract_notes text ;;
  sources <- _extract_sources text ;;
  location_fields <- _extract_location_fields text ctx ;;
  participant_fields <- _extract_participant_fields text ;;
  guns_involved_fields <- _extract_guns_involved_fields text ;;
  district_fields <- _extract_district_fields text ;;
  Ret (location_fields
       ++ participant_fields
       ++ [mkField "incident_characteristics"
             (opt_str incident_characteristics);
           mkField "notes" (opt_str notes)]
       ++ guns_involved_fields
       ++ [mkField "sources" (opt_str sources)]
       ++ district_fields)%list.

Definition extract_fields (text : soup) (ctx : Context)
  : result (list Field) :=
  fields <- produced_fields text ctx ;;
  _normalize fields.
End Stage2Extractor.


(** ** stage2_session.py *)

(** A row of the input table: [row['incident_url']], [row['address']], ... *)
Record Row : Type := {
  incident_url : string;
  row_address : string;
  row_city_or_county : string;
  row_state : string
}.

(** What [scraper.get(url)] returns, a [requests.Response], by what the
    session reads of it: [resp.status_code], [resp.headers.get(CONTENT_TYPE)]
    and [resp.text], the latter as the tree [BeautifulSoup] makes of it. *)
Record response : Type := {
  status_code : Z;
  content_type : option string;
  text : soup
}.

(** What one call of [scraper.get(url)] does: it returns a response or
    raises. *)
Inductive attempt : Type :=
| Responds (resp : response)
| Fails (exc : exception).

(** The [status] that [_get] logs: a status code or a tag. *)
Inductive status : Type :=
| StatusCode (code : Z)
| StatusTag (tag : string).

(** What the session does to the outside, in order.
    Modelled from the spec: [log_utils.log_first_call] is not among the
    sources; the spec counts it as routine tracing, and a call of it is
    recorded as [LogFirstCall] with the name of the calling function. *)
Inductive event : Type :=
| LogFirstCall (caller : string)
| LogRetry (url : string) (st : status) (retry_wait : Z) (* [_log_retry] *)
| Sleep (seconds : Z)                                    (* [asyncio.sleep] *)
| LogExtractionFailed (url : string)             (* [_log_extraction_failed] *)
| PrintExc (exc : exception).                            (* [tb.print_exc()] *)

(** The outside of one task: what the coming calls of [scraper.get] do, the
    coming standard normal samples, [platform.system()], and the events so
    far, oldest first. *)
Record world : Type := {
  attempts : list attempt;
  samples : list float;
  system : string;
  trace : list event
}.

(** A session action: [None] when the scripted [attempts] or [samples] end
    before the action does. *)
Definition io (A : Type) : Type := world -> option (result A * world).

Definition io_ret {A : Type} (a : A) : io A := fun w => Some (Ret a, w).

Definition io_raise {A : Type} (e : exception) : io A :=
  fun w => Some (Raise e, w).

Definition io_bind {A B : Type} (c : io A) (k : A -> io B) : io B :=
  fun w =>
    match c w with
    | Some (Ret a, w') => k a w'
    | Some (Raise e, w') => Some (Raise e, w')
    | None => None
    end.

Notation "x <~ c ;; k" := (io_bind c (fun x => k))
  (at level 61, c at next level, right associativity) : py_scope.
Notation "c ;;; k" := (io_bind c (fun _ => k))
  (at level 61, right associativity) : py_scope.

Definition lift {A : Type} (r : result A) : io A := fun w => Some (r, w).

Definition emit (e : event) : io unit :=
  fun w => Some (Ret tt, {| attempts := attempts w; samples := samples w;
                            system := system w;
                            trace := (trace w ++ [e])%list |}).

(** [try: c  except Exception as exc: handler exc  else: orelse v], with [v]
    the value of [c].  The clause catches the classes derived from
    [Exception]; what [handler] or [orelse] raises is not caught. *)
Definition try_except_else {A B : Type} (c : io A)
  (handler : exception -> io B) (orelse : A -> io B) : io B :=
  fun w =>
    match c w with
    | Some (Ret a, w') => orelse a w'
    | Some (Raise e, w') =>
        if is_Exception e then handler e w' else Some (Raise e, w')
    | None => None
    end.

(** [try: c  except Exception as exc: handler exc] *)
Definition try_except {A : Type} (c : io A) (handler : exception -> io A)
  : io A :=
  try_except_else c handler io_ret.

(** [scraper.get(url)] *)
Definition scraper_get (url : string) : io response :=
  fun w =>
    match attempts w with
    | [] => None
    | a :: rest =>
        Some (match a with
              | Responds resp => Ret resp
              | Fails exc => Raise exc
              end,
              {| attempts := rest; samples := samples w;
                 system := system w; trace := trace w |})
    end.

(** [np.random.standard_normal(size=1)[0]] *)
Definition standard_normal : io float :=
  fun w =>
    match samples w with
    | [] => None
    | z :: rest =>
        Some (Ret z, {| attempts := attempts w; samples := rest;
                        system := system w; trace := trace w |})
    end.

(** [platform.system()] *)
Definition platform_system : io string := fun w => Some (Ret (system w), w).

Definition log_first_call (caller : string) : io unit :=
  emit (LogFirstCall caller).

(** [resp.release()].  The method is that of an aiohttp response; a
    [requests.Response] has [close()] and no attribute [release], so that
    the expression raises before there is anything to await. *)
Definition release (resp : response) : io unit := io_raise AttributeError.

(** [resp.raise_for_status()] of a [requests.Response]: an [HTTPError] for
    a status from 400 to 599. *)
Definition raise_for_status (resp : response) : io unit :=
  if (400 <=? status_code resp)%Z && (status_code resp <? 600)%Z
  then io_raise (HTTPError (status_code resp))
  else io_ret tt.

(** [isinstance(exc, ClientResponseError) and exc.code == 404] *)
Definition is_404 (exc : exception) : bool :=
  match exc with
  | ClientResponseError code => (code =? 404)%Z
  | _ => false
  end.

Section Stage2Session.
Context `{Numeric}.

(** The wait for a given sample:
    [int(np.ceil(rng_base ** (log_average_wait + fuzz)))]. *)
Definition wait_of_sample (average_wait rng_base : Z) (fuzz : float)
  : result Z :=
  log_average_wait <- math_log average_wait rng_base ;;
  int_of_float (np_ceil (py_pow rng_base (log_average_wait + fuzz)%float)).

Definition _compute_wait (average_wait rng_base : Z) : io Z :=
  log_first_call "_compute_wait" ;;;
  log_average_wait <~ lift (math_log average_wait rng_base) ;;
  fuzz <~ standard_normal ;;
  lift (int_of_float
          (np_ceil (py_pow rng_base (log_average_wait + fuzz)%float))).

Definition _status_from_exception (exc : exception) : io string :=
  system <~ platform_system ;;
  io_ret
    match exc with
    | CancelledError => "<canceled>"
    | ClientOSError errno =>
        if String.eqb system "Windows" && (errno =? 10054)%Z
        then "<conn closed>"
          (* WinError: An existing connection was forcibly closed by the
             remote host *)
        else ""
    | TimeoutError => "<timed out>"
    | _ => ""
    end.

Definition _log_retry (url : string) (st : status) (retry_wait : Z)
  : io unit :=
  emit (LogRetry url st retry_wait).

Definition _log_extraction_failed (url : string) : io unit :=
  emit (LogExtractionFailed url).

(** The [while True] loop of [_get].  Each turn takes one scripted call of
    [scraper.get], so [turns] as large as the script never cuts it short.
    The [try] statement leaves the turn by [return] ([inl]), by an exception,
    or with the [status] to wait on ([inr]). *)
Fixpoint _get_loop (turns : nat) (url : string) (average_wait rng_base : Z)
  : io response :=
  match turns with
  | O => fun _ => None
  | S turns' =>
      r <~ try_except_else (scraper_get url)
             (fun exc =>
                status <~ _status_from_exception exc ;;
                if String.eqb status "" then io_raise exc
                else io_ret (inr (StatusTag status)))
             (fun resp =>
                let status := status_code resp in
                if (status <? 500)%Z (* Suceeded or client error *)
                then io_ret (inl resp)
                else
                  (* It's a server error. Dispose the response and retry. *)
                  release resp ;;;
                  io_ret (inr (StatusCode status))) ;;
      match r with
      | inl resp => io_ret resp
      | inr status =>
          wait <~ _compute_wait average_wait rng_base ;;
          _log_retry url status wait ;;;
          emit (Sleep wait) ;;;
          _get_loop turns' url average_wait rng_base
      end
  end.

Definition _get (url : string) (average_wait rng_base : Z) : io response :=
  fun w => _get_loop (List.length (attempts w)) url average_wait rng_base w.

Definition _get_fields_from_incident_url (row : Row) : io (list Field) :=
  let incident_url := incident_url row in
  resp <~ _get incident_url 10 2 ;;
  raise_for_status resp ;;;
  let ctype := Py.lower (match content_type resp with
                         | Some v => v
                         | None => ""
                         end) in
  let mimetype := Py.slice_to ctype (Py.find ";" ctype) in
  text <~ (if String.eqb mimetype "text/htm"
              || String.eqb mimetype "text/html"
           then io_ret (text resp)
           else io_raise NotImplementedError) ;;
  let ctx := {| address := row_address row;
                city_or_county := row_city_or_county row;
                state := row_state row |} in
  log_first_call "extract_fields" ;;;
  lift (extract_fields text ctx).

Definition get_fields_from_incident_url (row : Row) : io (list Field) :=
  log_first_call "get_fields_from_incident_url" ;;;
  try_except (_get_fields_from_incident_url row)
    (fun exc =>
       (* Passing return_exceptions=True to asyncio.gather() destroys the
          ability to print them once they're caught, so do that manually
          here. *)
       (if is_404 exc
        then
          (* 404 is handled gracefully by us so this isn't too
             newsworthy. *)
          io_ret tt
        else
          _log_extraction_failed (incident_url row) ;;;
          emit (PrintExc exc)) ;;;
       io_raise exc).
End Stage2Session.

(** ** An instance of [Numeric] to run examples with

    [np.ceil] and [int] are exact operations, defined here on the sign,
    mantissa and exponent of a double.  [float(s)] reads a plain decimal
    literal by one correctly rounded division, which rounds correctly while
    the digits stay below [2^53] and there are at most 18 decimals; other
    literals are refused here.  [math.log] and [**] are tabulated: at the
    point the examples need, with the doubles CPython and numpy return there
    ([math.log(10, 2)] is [3.3219280948873626] and
    [2 ** 3.3219280948873626] is [10.000000000000002]), and for base 2 below
    the exponent -1075, where the power is less than half the smallest
    double and rounds to zero. *)

Definition float_of_Z (n : Z) : float :=
  if (n <? 0)%Z
  then (- PrimFloat.of_uint63 (Uint63.of_Z (- n)))%float
  else PrimFloat.of_uint63 (Uint63.of_Z n).

Fixpoint split_at_dot (s : string) : string * option string :=
  match s with
  | EmptyString => (EmptyString, None)
  | String c s' =>
      if Ascii.eqb c "."
      then (EmptyString, Some s')
      else let '(a, b) := split_at_dot s' in (String c a, b)
  end.

Definition decimal_float (s : string) : result float :=
  let t := Py.number_strip s in
  let '(neg, body) :=
    match t with
    | String "-" u => (true, u)
    | String "+" u => (false, u)
    | _ => (false, t)
    end in
  let '(whole, frac) := split_at_dot body in
  let frac := match frac with Some f => f | None => EmptyString end in
  let digits := (whole ++ frac)%string in
  if String.eqb digits EmptyString
     || negb (Py.all_chars Py.is_digit digits)
     || (2 ^ 53 <=? Py.digits_value digits 0)%Z
     || (18 <? String.length frac)%nat
  then Raise ValueError
  else
    let x := (float_of_Z (Py.digits_value digits 0)
              / float_of_Z (10 ^ Z.of_nat (String.length frac)))%float in
    Ret (if neg then (- x)%float else x).

(** The double of a positive integer below [2^53]: its binary digits, moved
    up to fill the 53 of a mantissa. *)
Definition float_of_small (q : positive) : float :=
  let shift := (53 - Z.pos (Pos.size q))%Z in
  SF2Prim (S754_finite false (Z.to_pos (Z.pos q * 2 ^ shift)) (- shift)).

(** The least integer not below [x], as a double. *)
Definition exact_ceil (x : float) : float :=
  match Prim2SF x with
  | S754_finite neg m e =>
      if (0 <=? e)%Z then x
      else
        let d := (2 ^ (- e))%Z in
        let q := (Z.pos m / d)%Z in
        if neg
        then match q with
             | Zpos q' => (- float_of_small q')%float
             | _ => (- 0)%float
             end
        else match (if (Z.pos m mod d =? 0)%Z then q else q + 1)%Z with
             | Zpos q' => float_of_small q'
             | _ => 0%float
             end
  | _ => x
  end.

(** [int(x)]: the integer part, if there is one. *)
Definition exact_int (x : float) : result Z :=
  match Prim2SF x with
  | S754_zero _ => Ret 0%Z
  | S754_infinity _ => Raise OverflowError
  | S754_nan => Raise ValueError
  | S754_finite neg m e =>
      let mag := if (0 <=? e)%Z then (Z.pos m * 2 ^ e)%Z
                 else (Z.pos m / 2 ^ (- e))%Z in
      Ret (if neg then (- mag)%Z else mag)
  end.

(** [math.log(10, 2)] and [2 ** math.log(10, 2)], as CPython has them. *)
Definition log_10_2 : float := 0x1.a934f0979a372p+1%float.
Definition pow_2_log_10_2 : float := 0x1.4000000000001p+3%float.

Definition example_numeric : Numeric := {|
  py_float := decimal_float;
  math_log := fun x base =>
    if (x =? 10)%Z && (base =? 2)%Z then Ret log_10_2 else Raise ValueError;
  py_pow := fun base x =>
    if (base =? 2)%Z && PrimFloat.eqb x log_10_2 then pow_2_log_10_2
    else if (base =? 2)%Z && PrimFloat.ltb x (-1075)%float then 0%float
    else PrimFloat.nan;
  np_ceil := exact_ceil;
  int_of_float := exact_int
|}.

(** * Properties *)

(** ** The order on names *)

Definition slt (a b : string) : Prop := (a ?= b)%string = Lt.

Lemma ascii_compare_refl (c : ascii) : Ascii.compare c c = Eq.
Proof. unfold Ascii.compare. apply N.compare_refl. Qed.

Lemma ascii_compare_lt_trans (a b c : ascii) :
  Ascii.compare a b = Lt -> Ascii.compare b c = Lt -> Ascii.compare a c = Lt.
Proof.
  unfold Ascii.compare. rewrite !N.compare_lt_iff. apply N.lt_trans.
Qed.

Lemma string_compare_refl (s : string) : (s ?= s)%string = Eq.
Proof.
  induction s as [|c s IH]; simpl; [reflexivity|].
  now rewrite ascii_compare_refl.
Qed.

Lemma slt_trans (a b c : string) : slt a b -> slt b c -> slt a c.
Proof.
  unfold slt. revert b c.
  induction a as [|x a IH]; intros [|y b] [|z c]; simpl; try easy.
  destruct (Ascii.compare x y) eqn:Exy; try easy;
    destruct (Ascii.compare y z) eqn:Eyz; try easy; intros Hab Hbc.
  - apply Ascii.compare_eq_iff in Exy, Eyz. subst.
    rewrite ascii_compare_refl. eauto.
  - apply Ascii.compare_eq_iff in Exy. subst. now rewrite Eyz.
  - apply Ascii.compare_eq_iff in Eyz. subst. now rewrite Exy.
  - now rewrite (ascii_compare_lt_trans _ _ _ Exy Eyz).
Qed.

Lemma slt_irrefl (a : string) : ~ slt a a.
Proof. unfold slt. now rewrite string_compare_refl. Qed.

Lemma slt_neq (a b : string) : slt a b -> a <> b.
Proof. intros H ->. now apply slt_irrefl in H. Qed.

Lemma slt_asym (a b : string) : slt a b -> ~ slt b a.
Proof. intros H1 H2. exact (slt_irrefl a (slt_trans _ _ _ H1 H2)). Qed.

Lemma leb_cases (a b : string) :
  (a <=? b)%string = true -> a = b \/ slt a b.
Proof.
  unfold String.leb, slt. destruct (a ?= b)%string eqn:E; try easy.
  - left. now apply String.compare_eq_iff.
  - now right.
Qed.

Lemma leb_false_slt (a b : string) : (a <=? b)%string = false -> slt b a.
Proof.
  unfold String.leb, slt. rewrite (String.compare_antisym b a).
  now destruct (a ?= b)%string.
Qed.

Lemma name_in_In (n : string) (names : list string) :
  name_in n names = true <-> In n names.
Proof.
  unfold name_in. rewrite existsb_exists. split.
  - intros (x & Hx & E). apply String.eqb_eq in E. now subst.
  - intros Hn. exists n. split; [assumption | apply String.eqb_refl].
Qed.

Lemma name_in_false (n : string) (names : list string) :
  name_in n names = false <-> ~ In n names.
Proof.
  rewrite <- name_in_In. destruct (name_in n names); split; congruence.
Qed.

(** ** [sorted] *)

Section Sorted.
Context {A : Type} (key : A -> string).

Definition key_le (x y : A) : Prop := key x = key y \/ slt (key x) (key y).

Lemma insert_sorted_perm (x : A) (l : list A) :
  Permutation (x :: l) (insert_sorted key x l).
Proof.
  induction l as [|y l IH]; simpl; [reflexivity|].
  destruct (key x <=? key y)%string; [reflexivity|].
  rewrite perm_swap. now constructor.
Qed.

Lemma sorted_perm (l : list A) : Permutation l (sorted key l).
Proof.
  induction l as [|x l IH]; simpl; [constructor|].
  rewrite <- insert_sorted_perm. now constructor.
Qed.

Lemma key_le_trans (x y z : A) : key_le x y -> key_le y z -> key_le x z.
Proof.
  unfold key_le. intros [E1|L1] [E2|L2].
  - left. congruence.
  - right. now rewrite E1.
  - right. now rewrite <- E2.
  - right. eapply slt_trans; eassumption.
Qed.

Lemma insert_sorted_sorted (x : A) (l : list A) :
  StronglySorted key_le l -> StronglySorted key_le (insert_sorted key x l).
Proof.
  induction 1 as [|y l Hl IH Hy]; simpl.
  - repeat constructor.
  - destruct (key x <=? key y)%string eqn:E.
    + apply leb_cases in E. constructor; [now constructor|].
      constructor; [exact E|].
      rewrite Forall_forall in *. intros z Hz.
      eapply key_le_trans; [exact E | now apply Hy].
    + apply leb_false_slt in E. constructor; [assumption|].
      rewrite Forall_forall in *. intros z Hz.
      apply (Permutation_in _ (Permutation_sym (insert_sorted_perm x l))) in Hz.
      destruct Hz as [<-|Hz]; [now right | now apply Hy].
Qed.

Lemma sorted_sorted (l : list A) : StronglySorted key_le (sorted key l).
Proof.
  induction l as [|x l IH]; simpl; [constructor|].
  now apply insert_sorted_sorted.
Qed.

(** Distinct keys make the order strict. *)
Lemma sorted_strict (l : list A) :
  NoDup (map key l) -> StronglySorted slt (map key (sorted key l)).
Proof.
  intros Hnd.
  assert (Hnd' : NoDup (map key (sorted key l))).
  { eapply Permutation_NoDup; [|exact Hnd].
    apply Permutation_map, sorted_perm. }
  generalize (sorted_sorted l). clear Hnd.
  induction 1 as [|x m Hm IH Hx]; simpl in *; [constructor|].
  inversion Hnd' as [|? ? Hnotin Hnd'']; subst.
  constructor; [now apply IH|].
  rewrite Forall_forall in *. intros k Hk.
  apply in_map_iff in Hk as (y & <- & Hy).
  destruct (Hx y Hy) as [E|L]; [|exact L].
  exfalso. apply Hnotin. rewrite E. now apply in_map.
Qed.
End Sorted.

(** ** [_normalize] *)

Lemma list_insert_app {A : Type} (x : A) (done rest : list A) :
  list_insert (List.length done) x (done ++ rest)%list
  = (done ++ x :: rest)%list.
Proof.
  unfold list_insert.
  rewrite firstn_app, skipn_app, Nat.sub_diag, firstn_all, skipn_all.
  simpl. now rewrite app_nil_r.
Qed.

Lemma length_list_insert {A : Type} (i : nat) (x : A) (l : list A) :
  List.length (list_insert i x l) = S (List.length l).
Proof.
  unfold list_insert.
  pose proof (f_equal (@List.length A) (firstn_skipn i l)) as E.
  rewrite length_app in E. rewrite length_app. simpl. lia.
Qed.

Lemma length_insert_dummies (names fn : list string) :
  forall (i : nat) (fields : list Field),
    List.length (insert_dummies names i fn fields)
    = (List.length fields
       + List.length (filter (fun n => negb (name_in n fn)) names))%nat.
Proof.
  induction names as [|n names IH]; intros i fields; simpl; [lia|].
  rewrite IH. destruct (negb (name_in n fn)); simpl.
  - rewrite length_list_insert. lia.
  - reflexivity.
Qed.

Lemma sorted_head_is_min (n : string) (names : list string) (f : Field)
  (rest : list Field) :
  StronglySorted slt (n :: names) ->
  StronglySorted slt (map name (f :: rest)) ->
  incl (map name (f :: rest)) (n :: names) ->
  In n (map name (f :: rest)) ->
  name f = n.
Proof.
  intros Hn Hr Hincl Hin. simpl in *.
  destruct Hin as [E|Hin]; [assumption|].
  inversion Hr as [|? ? _ Hf]; subst. inversion Hn as [|? ? _ Hnn]; subst.
  rewrite Forall_forall in Hf, Hnn.
  specialize (Hf n Hin).
  destruct (Hincl (name f) (or_introl eq_refl)) as [E|Hfn]; [now symmetry|].
  specialize (Hnn _ Hfn). now apply slt_asym in Hf.
Qed.

(** The insertion loop, started after [done] (the part of the record already
    in place) on the sorted fields [rest] still to come. *)
Lemma insert_dummies_spec (names : list string) :
  forall (done rest : list Field) (fn : list string),
    StronglySorted slt names ->
    StronglySorted slt (map name rest) ->
    incl (map name rest) names ->
    (forall n, In n names -> (name_in n fn = true <-> In n (map name rest))) ->
    exists out,
      insert_dummies names (List.length done) fn (done ++ rest)%list
      = (done ++ out)%list
      /\ map name out = names
      /\ incl rest out
      /\ (forall n, In n names -> ~ In n (map name rest) ->
                    In (mkField n VNone) out).
Proof.
  induction names as [|n names IH]; intros done rest fn Hn Hr Hincl Hfn.
  - destruct rest as [|f rest].
    + exists []. simpl. repeat split; easy.
    + exfalso. apply (Hincl (name f)). now left.
  - simpl. inversion Hn as [|? ? Hn' Hnn]; subst.
    rewrite Forall_forall in Hnn.
    destruct (name_in n fn) eqn:E; simpl.
    + apply (Hfn n (or_introl eq_refl)) in E.
      destruct rest as [|f rest]; [easy|].
      assert (Ef : name f = n) by (eapply sorted_head_is_min; eassumption).
      inversion Hr as [|? ? Hr' Hfr]; subst.
      rewrite Forall_forall in Hfr.
      destruct (IH (done ++ [f])%list rest fn Hn' Hr') as (out & E1 & E2 & E3 & E4).
      * intros m Hm. destruct (Hincl m (or_intror Hm)) as [<-|Hm']; [|easy].
        now apply Hfr, slt_irrefl in Hm.
      * intros m Hm. rewrite (Hfn m (or_intror Hm)). simpl.
        split; [|now right].
        intros [Em|Hm']; [|easy].
        apply Hnn in Hm. rewrite Em in Hm. now apply slt_irrefl in Hm.
      * exists (f :: out).
        rewrite length_app, Nat.add_1_r, <- app_assoc in E1. simpl in E1.
        rewrite E1, <- app_assoc. simpl.
        split; [reflexivity|]. split; [now rewrite E2|].
        split; [intros g [<-|Hg]; [now left | right; now apply E3]|].
        intros m [<-|Hm] Hnot; [exfalso; apply Hnot; now left|].
        right. apply E4; [assumption|]. intros Hm'. apply Hnot. now right.
    + assert (Hnot : ~ In n (map name rest)).
      { rewrite <- (Hfn n (or_introl eq_refl)). congruence. }
      rewrite list_insert_app.
      destruct (IH (done ++ [mkField n VNone])%list rest fn Hn' Hr)
        as (out & E1 & E2 & E3 & E4).
      * intros m Hm. destruct (Hincl m Hm) as [<-|Hm']; easy.
      * intros m Hm. apply Hfn. now right.
      * exists (mkField n VNone :: out).
        rewrite length_app, Nat.add_1_r, <- app_assoc in E1. simpl in E1.
        rewrite E1, <- app_assoc. simpl.
        split; [reflexivity|]. split; [now rewrite E2|].
        split; [intros g Hg; right; now apply E3|].
        intros m [<-|Hm] Hnot'; [now left|]. right. now apply E4.
Qed.

Lemma ALL_FIELD_NAMES_eq :
  ALL_FIELD_NAMES =
  ["congressional_district"; "gun_stolen"; "gun_type";
   "incident_characteristics"; "latitude"; "location_description";
   "longitude"; "n_guns_involved"; "notes"; "participant_age";
   "participant_age_group"; "participant_gender"; "participant_name";
   "participant_relationship"; "participant_status"; "participant_type";
   "sources"; "state_house_district"; "state_senate_district"].
Proof. reflexivity. Qed.

Lemma ALL_FIELD_NAMES_sorted : StronglySorted slt ALL_FIELD_NAMES.
Proof.
  rewrite ALL_FIELD_NAMES_eq.
  repeat (constructor; [|repeat (constructor; [reflexivity|]); constructor]).
  constructor.
Qed.

Lemma StronglySorted_slt_NoDup (l : list string) :
  StronglySorted slt l -> NoDup l.
Proof.
  induction 1 as [|x l Hl IH Hx]; constructor; [|assumption].
  rewrite Forall_forall in Hx. intros Hin. now apply Hx, slt_irrefl in Hin.
Qed.

Lemma filter_none {A : Type} (q : A -> bool) (l : list A) :
  (forall x, In x l -> q x = false) -> filter q l = [].
Proof.
  induction l as [|x l IH]; intros Hq; simpl; [reflexivity|].
  rewrite (Hq x (or_introl eq_refl)). apply IH. intros y Hy. apply Hq. now right.
Qed.

Lemma filter_some {A : Type} (q : A -> bool) (l : list A) (x : A) :
  In x l -> q x = true -> filter q l <> [].
Proof.
  intros Hin Hq E. assert (Hx : In x (filter q l)) by now apply filter_In.
  now rewrite E in Hx.
Qed.

Lemma sorted_names_perm (fields : list Field) :
  Permutation (map name fields) (map name (sorted name fields)).
Proof. apply Permutation_map, sorted_perm. Qed.

(** A record with exactly the names of the schema, in its order, that keeps
    every given field and is null elsewhere. *)
Definition normal_form (fields rec : list Field) : Prop :=
  map name rec = ALL_FIELD_NAMES
  /\ incl fields rec
  /\ (forall n, In n ALL_FIELD_NAMES -> ~ In n (map name fields) ->
                In (mkField n VNone) rec).

Lemma _normalize_ok (fields : list Field) :
  fields <> [] ->
  NoDup (map name fields) ->
  (forall f, In f fields -> In (name f) ALL_FIELD_NAMES) ->
  exists rec, _normalize fields = Ret rec /\ normal_form fields rec.
Proof.
  intros Hne Hnd Hall. unfold _normalize.
  pose proof (sorted_perm name fields) as Hperm.
  pose proof (sorted_strict name fields Hnd) as Hsorted.
  destruct (sorted name fields) as [|f0 fs] eqn:Efs.
  { apply Permutation_sym, Permutation_nil in Hperm. contradiction. }
  rewrite <- Efs in *. clear Efs f0 fs.
  rewrite filter_none.
  2:{ intros n Hn. apply in_map_iff in Hn as (f & <- & Hf).
      apply (Permutation_in _ (Permutation_sym Hperm)), Hall in Hf.
      apply name_in_In in Hf. cbv beta. now rewrite Hf. }
  destruct (insert_dummies_spec ALL_FIELD_NAMES [] (sorted name fields)
              (map name (sorted name fields)) ALL_FIELD_NAMES_sorted Hsorted)
    as (out & E1 & E2 & E3 & E4).
  - intros n Hn. apply in_map_iff in Hn as (f & <- & Hf).
    now apply (Permutation_in _ (Permutation_sym Hperm)), Hall in Hf.
  - intros n _. apply name_in_In.
  - change (List.length (@nil Field)) with 0%nat in E1.
    rewrite !app_nil_l in E1. rewrite E1.
    replace (List.length out) with (List.length ALL_FIELD_NAMES)
      by now rewrite <- E2, length_map.
    rewrite Nat.eqb_refl. exists out. split; [reflexivity|].
    split; [assumption|]. split.
    + intros f Hf. apply E3. now apply (Permutation_in _ Hperm).
    + intros n Hn Hnot. apply E4; [assumption|]. intros Hin. apply Hnot.
      now apply (Permutation_in _ (Permutation_sym (sorted_names_perm fields))).
Qed.

(** What a successful [_normalize] tells about its argument. *)
Lemma _normalize_inv (fields rec : list Field) :
  _normalize fields = Ret rec ->
  fields <> []
  /\ NoDup (map name fields)
  /\ (forall f, In f fields -> In (name f) ALL_FIELD_NAMES).
Proof.
  unfold _normalize. intros Hrun.
  pose proof (sorted_perm name fields) as Hperm.
  destruct (sorted name fields) as [|f0 fs] eqn:Efs; [discriminate|].
  assert (Hne : sorted name fields <> []) by (rewrite Efs; discriminate).
  rewrite <- Efs in *. clear Efs f0 fs.
  remember (filter (fun n => negb (name_in n ALL_FIELD_NAMES))
              (map name (sorted name fields))) as bad eqn:Efilter.
  symmetry in Efilter. destruct bad; [|discriminate].
  remember (List.length
              (insert_dummies ALL_FIELD_NAMES 0
                 (map name (sorted name fields)) (sorted name fields))
            =? List.length ALL_FIELD_NAMES)%nat as ok eqn:Elen.
  symmetry in Elen. destruct ok; [|discriminate].
  apply Nat.eqb_eq in Elen. rewrite length_insert_dummies in Elen.
  assert (Hall : forall n, In n (map name (sorted name fields)) ->
                           In n ALL_FIELD_NAMES).
  { intros n Hn. apply name_in_In.
    destruct (name_in n ALL_FIELD_NAMES) eqn:E; [reflexivity|].
    exfalso. eapply (filter_some _ _ n Hn); [|exact Efilter].
    cbv beta. now rewrite E. }
  split; [|split].
  - intros ->. now apply Hne.
  - eapply Permutation_NoDup;
      [apply Permutation_sym, sorted_names_perm|].
    set (fn := map name (sorted name fields)) in *.
    apply NoDup_incl_NoDup
      with (l := filter (fun n => name_in n fn) ALL_FIELD_NAMES).
    + apply NoDup_filter, StronglySorted_slt_NoDup, ALL_FIELD_NAMES_sorted.
    + pose proof (filter_length (fun n => name_in n fn) ALL_FIELD_NAMES) as Hlen.
      unfold fn at 1. rewrite length_map.
      assert (E : filter (fun x => negb (name_in x fn)) ALL_FIELD_NAMES
                  = filter (fun n => negb (name_in n fn)) ALL_FIELD_NAMES)
        by reflexivity.
      lia.
    + intros n Hn. apply filter_In in Hn as [_ Hn]. now apply name_in_In.
  - intros f Hf. apply Hall, in_map.
    now apply (Permutation_in _ Hperm).
Qed.

Lemma _normalize_rejects_unknown (fields : list Field) :
  (exists f, In f fields /\ ~ In (name f) ALL_FIELD_NAMES) ->
  _normalize fields = Raise AssertionError.
Proof.
  intros (f & Hf & Hnot). unfold _normalize.
  pose proof (sorted_perm name fields) as Hperm.
  destruct (sorted name fields) as [|f0 fs] eqn:Efs.
  { apply Permutation_sym, Permutation_nil in Hperm. now subst. }
  rewrite <- Efs in *. clear Efs f0 fs.
  remember (filter (fun n => negb (name_in n ALL_FIELD_NAMES))
              (map name (sorted name fields))) as bad eqn:Efilter.
  symmetry in Efilter. destruct bad; [|reflexivity].
  exfalso. eapply (filter_some _ _ (name f)); [| |exact Efilter].
  - apply in_map. now apply (Permutation_in _ Hperm).
  - apply name_in_false in Hnot. cbv beta. now rewrite Hnot.
Qed.


(** ** What each section of the document produces *)

(** The fields of each section, as [ALL_FIELD_NAMES] groups them. *)
Definition SECTION_FIELDS : list (string * list string) :=
  [("Location", ["latitude"; "longitude"; "location_description"]);
   ("Participants",
    ["participant_type"; "participant_name"; "participant_age";
     "participant_age_group"; "participant_gender"; "participant_status";
     "participant_relationship"]);
   ("Incident Characteristics", ["incident_characteristics"]);
   ("Notes", ["notes"]);
   ("Guns Involved", ["n_guns_involved"; "gun_type"; "gun_stolen"]);
   ("Sources", ["sources"]);
   ("District",
    ["congressional_district"; "state_senate_district";
     "state_house_district"])].

Lemma bind_Ret {A B : Type} (r : result A) (k : A -> result B) (b : B) :
  bind r k = Ret b -> exists a, r = Ret a /\ k a = Ret b.
Proof. destruct r as [a|e]; simpl; [eauto | discriminate]. Qed.

Lemma for_yield_In {A B : Type} (body : A -> result (list B)) (xs : list A) :
  forall out y,
    for_yield xs body = Ret out -> In y out ->
    exists x ys, In x xs /\ body x = Ret ys /\ In y ys.
Proof.
  induction xs as [|x xs IH]; simpl; intros out y Hrun Hy.
  - injection Hrun as <-. contradiction.
  - apply bind_Ret in Hrun as (ys & Hx & Hrun).
    apply bind_Ret in Hrun as (zs & Hxs & Hrun).
    injection Hrun as <-. apply in_app_or in Hy as [Hy|Hy].
    + exists x, ys. auto.
    + destruct (IH zs y Hxs Hy) as (x' & ys' & H1 & H2 & H3).
      exists x', ys'. auto.
Qed.

Lemma prefix_app (a b : string) : prefix a (a ++ b) = true.
Proof.
  induction a as [|c a IH]; simpl; [now destruct b|].
  destruct (ascii_dec c c); [assumption | contradiction].
Qed.

Section Produced.
Context `{Numeric}.

Lemma location_span_names (ctx : Context) (text : string) (fs : list Field) :
  location_span ctx text = Ret fs ->
  forall f, In f fs ->
    In (name f) ["latitude"; "longitude"; "location_description"].
Proof.
  unfold location_span. intros Hrun f Hf.
  destruct (String.eqb text ""); [injection Hrun as <-; contradiction|].
  destruct (Re.search geolocation_re text).
  - apply bind_Ret in Hrun as (lat & _ & Hrun).
    apply bind_Ret in Hrun as (lon & _ & Hrun).
    injection Hrun as <-. destruct Hf as [<-|[<-|[]]]; simpl; auto.
  - destruct (_ || _); injection Hrun as <-; [contradiction|].
    destruct Hf as [<-|[]]; simpl; auto.
Qed.

Lemma _extract_location_fields_names (text : soup) (ctx : Context)
  (fs : list Field) :
  _extract_location_fields text ctx = Ret fs ->
  forall f, In f fs ->
    In (name f) ["latitude"; "longitude"; "location_description"].
Proof.
  unfold _extract_location_fields. intros Hrun f Hf.
  apply bind_Ret in Hrun as ([d|] & _ & Hrun).
  - destruct (for_yield_In _ _ _ _ Hrun Hf) as (x & ys & _ & Hx & Hy).
    eapply location_span_names; eassumption.
  - injection Hrun as <-. contradiction.
Qed.

Lemma attribute_fields_names (pre : string) (linegroups : list (list string))
  (fs : list Field) :
  attribute_fields pre linegroups = Ret fs ->
  forall f, In f fs -> prefix pre (name f) = true.
Proof.
  unfold attribute_fields. intros Hrun f Hf.
  apply bind_Ret in Hrun as (ds2 & _ & Hrun).
  destruct (for_yield_In _ _ _ _ Hrun Hf) as (x & ys & _ & Hx & Hy).
  apply bind_Ret in Hx as (v & _ & Hx). injection Hx as <-.
  destruct Hy as [<-|[]]. simpl. apply prefix_app.
Qed.

Lemma _extract_participant_fields_names (text : soup) (fs : list Field) :
  _extract_participant_fields text = Ret fs ->
  forall f, In f fs -> prefix "participant_" (name f) = true.
Proof.
  unfold _extract_participant_fields. intros Hrun f Hf.
  apply bind_Ret in Hrun as ([d|] & _ & Hrun).
  - eapply attribute_fields_names; eassumption.
  - injection Hrun as <-. contradiction.
Qed.

Lemma _extract_guns_involved_fields_names (text : soup) (fs : list Field) :
  _extract_guns_involved_fields text = Ret fs ->
  forall f, In f fs ->
    name f = "n_guns_involved" \/ prefix "gun_" (name f) = true.
Proof.
  unfold _extract_guns_involved_fields. intros Hrun f Hf.
  apply bind_Ret in Hrun as ([d|] & _ & Hrun).
  - destruct (p d) as [p_text|]; [|discriminate].
    destruct (Re.search guns_involved_re p_text) as [m|]; [|discriminate].
    apply bind_Ret in Hrun as (n & _ & Hrun).
    apply bind_Ret in Hrun as (rest & Hrest & Hrun).
    injection Hrun as <-. destruct Hf as [<-|Hf]; [now left|].
    right. eapply attribute_fields_names; eassumption.
  - injection Hrun as <-. contradiction.
Qed.

(** What an absent section yields. *)
Lemma absent_generator_sections (text : soup) (ctx : Context) :
  (_find_div_with_title "Location" text = Ret None ->
   _extract_location_fields text ctx = Ret [])
  /\ (_find_div_with_title "Participants" text = Ret None ->
      _extract_participant_fields text = Ret [])
  /\ (_find_div_with_title "Guns Involved" text = Ret None ->
      _extract_guns_involved_fields text = Ret [])
  /\ (_find_div_with_title "District" text = Ret None ->
      _extract_district_fields text = Ret []).
Proof.
  unfold _extract_location_fields, _extract_participant_fields,
    _extract_guns_involved_fields, _extract_district_fields.
  repeat split; intros ->; reflexivity.
Qed.

Lemma absent_plain_sections (text : soup) :
  (_find_div_with_title "Incident Characteristics" text = Ret None ->
   _extract_incident_characteristics text = Ret None)
  /\ (_find_div_with_title "Notes" text = Ret None ->
      _extract_notes text = Ret None)
  /\ (_find_div_with_title "Sources" text = Ret None ->
      _extract_sources text = Ret None).
Proof.
  unfold _extract_incident_characteristics, _extract_notes, _extract_sources.
  repeat split; intros ->; reflexivity.
Qed.

(** A name that a line of the District section is turned into. *)
Definition produced_by_district (text : soup) (n : string) : Prop :=
  exists district_fields,
    _extract_district_fields text = Ret district_fields
    /\ In n (map name district_fields).

End Produced.

Section AbsentSection.
Context `{Numeric}.

Lemma extract_fields_normal_form (text : soup) (ctx : Context)
  (rec : list Field) :
  extract_fields text ctx = Ret rec ->
  exists fields,
    produced_fields text ctx = Ret fields
    /\ fields <> []
    /\ NoDup (map name fields)
    /\ (forall f, In f fields -> In (name f) ALL_FIELD_NAMES)
    /\ normal_form fields rec.
Proof.
  unfold extract_fields. intros Hrun.
  apply bind_Ret in Hrun as (fields & Hprod & Hnorm).
  destruct (_normalize_inv _ _ Hnorm) as (Hne & Hnd & Hall).
  destruct (_normalize_ok fields Hne Hnd Hall) as (rec' & Hrec' & Hnf).
  rewrite Hnorm in Hrec'. injection Hrec' as <-.
  exists fields. auto.
Qed.

Lemma extract_fields_absent_section (text : soup) (ctx : Context)
  (rec : list Field) (title n : string) (names : list string) :
  extract_fields text ctx = Ret rec ->
  In (title, names) SECTION_FIELDS ->
  In n names ->
  _find_div_with_title title text = Ret None ->
  ~ produced_by_district text n ->
  In (mkField n VNone) rec.
Proof.
  intros Hrun Htitle Hn Habsent Hdistrict.
  destruct (extract_fields_normal_form _ _ _ Hrun)
    as (fields & Hprod & _ & _ & _ & _ & Hincl & Hnull).
  unfold produced_fields in Hprod.
  apply bind_Ret in Hprod as (ic & Hic & Hprod).
  apply bind_Ret in Hprod as (notes & Hnotes & Hprod).
  apply bind_Ret in Hprod as (sources & Hsources & Hprod).
  apply bind_Ret in Hprod as (loc & Hloc & Hprod).
  apply bind_Ret in Hprod as (part & Hpart & Hprod).
  apply bind_Ret in Hprod as (guns & Hguns & Hprod).
  apply bind_Ret in Hprod as (dist & Hdist & Hprod).
  injection Hprod as <-.
  destruct (absent_generator_sections text ctx) as (Aloc & Apart & Aguns & Adist).
  destruct (absent_plain_sections text) as (Aic & Anotes & Asources).
  assert (Hd : ~ In n (map name dist)).
  { intros Hin. apply Hdistrict. exists dist. auto. }
  assert (Hcases :
    In (mkField n VNone)
       (loc ++ part
        ++ [mkField "incident_characteristics" (opt_str ic);
            mkField "notes" (opt_str notes)]
        ++ guns ++ [mkField "sources" (opt_str sources)] ++ dist)%list
    \/ (In n ALL_FIELD_NAMES
        /\ ~ In n (map name
                     (loc ++ part
                      ++ [mkField "incident_characteristics" (opt_str ic);
                          mkField "notes" (opt_str notes)]
                      ++ guns ++ [mkField "sources" (opt_str sources)]
                      ++ dist)%list))).
  { rewrite !map_app, !in_app_iff.
    pose proof (_extract_location_fields_names _ _ _ Hloc) as Nloc.
    pose proof (_extract_participant_fields_names _ _ Hpart) as Npart.
    pose proof (_extract_guns_involved_fields_names _ _ Hguns) as Nguns.
    simpl in Htitle.
    repeat match type of Htitle with
           | _ \/ _ => destruct Htitle as [Htitle|Htitle]
           end; try contradiction;
      injection Htitle as <- <-; simpl in Hn;
      repeat match type of Hn with
             | _ \/ _ => destruct Hn as [Hn|Hn]
             end; try contradiction; subst n.
    all: try (specialize (Aloc Habsent); rewrite Aloc in Hloc;
              injection Hloc as <-).
    all: try (specialize (Apart Habsent); rewrite Apart in Hpart;
              injection Hpart as <-).
    all: try (specialize (Aguns Habsent); rewrite Aguns in Hguns;
              injection Hguns as <-).
    all: try (specialize (Aic Habsent); rewrite Aic in Hic;
              injection Hic as <-).
    all: try (specialize (Anotes Habsent); rewrite Anotes in Hnotes;
              injection Hnotes as <-).
    all: try (specialize (Asources Habsent); rewrite Asources in Hsources;
              injection Hsources as <-).
    all: try (left; simpl; tauto).
    all: right; split; [rewrite ALL_FIELD_NAMES_eq; simpl; tauto|].
    all: intros [Hin|[Hin|[Hin|[Hin|[Hin|Hin]]]]]; try contradiction.
    all: try (apply in_map_iff in Hin as (f & Ename & Hf);
              first [ specialize (Nloc _ Hf); rewrite Ename in Nloc;
                      vm_compute in Nloc; intuition discriminate
                    | specialize (Npart _ Hf); rewrite Ename in Npart;
                      vm_compute in Npart; discriminate
                    | specialize (Nguns _ Hf); rewrite Ename in Nguns;
                      vm_compute in Nguns; intuition discriminate ]).
    all: try (simpl in Hin; intuition discriminate). }
  destruct Hcases as [Hin|[Hall Hnot]].
  - now apply Hincl.
  - now apply Hnull.
Qed.

End AbsentSection.

(** ** Documents used as examples *)

Definition empty_div : div :=
  {| spans := []; uls := []; lis := []; p := None; anchors := []; brs := [] |}.

Definition example_ctx : Context :=
  {| address := "1200 Main St"; city_or_county := "Austin"; state := "Texas" |}.

(** No Location section; a District section whose only line is labelled
    "Latitude". *)
Definition district_latitude_doc : soup :=
  {| block_system_main :=
       Some [("District",
              {| spans := []; uls := []; lis := []; p := None; anchors := [];
                 brs := ["Latitude: 5"] |})] |}.

(** ** Claims on [_normalize] *)

Section NormalizeClaims.
Context `{Numeric}.

(** C1 (amended).  For every non-empty list of produced fields whose names
    are distinct and all in [ALL_FIELD_NAMES], [_normalize] returns a record
    that is sorted by field name, has the length of [ALL_FIELD_NAMES],
    contains every one of its names exactly once, is null at every name that
    was not produced and keeps every produced field; [extract_fields] returns
    that record when these are the fields it produced.  For a document that
    lacks a section and on which [extract_fields] returns a record, the record
    has exactly the names of [ALL_FIELD_NAMES], and each field of the absent
    section is null in it unless a line of the District section was turned
    into a field of that name. *)
Theorem normalize_completes_schema :
  (forall fields : list Field,
      fields <> [] ->
      NoDup (map name fields) ->
      (forall f, In f fields -> In (name f) ALL_FIELD_NAMES) ->
      exists rec,
        _normalize fields = Ret rec
        /\ StronglySorted slt (map name rec)
        /\ List.length rec = List.length ALL_FIELD_NAMES
        /\ (forall n, In n ALL_FIELD_NAMES ->
                      count_occ string_dec (map name rec) n = 1%nat)
        /\ (forall n, In n ALL_FIELD_NAMES -> ~ In n (map name fields) ->
                      In (mkField n VNone) rec)
        /\ (forall f, In f fields -> In f rec)
        /\ (forall text ctx,
               produced_fields text ctx = Ret fields ->
               extract_fields text ctx = Ret rec))
  /\ (forall (text : soup) (ctx : Context) (rec : list Field)
             (title n : string) (names : list string),
         extract_fields text ctx = Ret rec ->
         In (title, names) SECTION_FIELDS ->
         In n names ->
         _find_div_with_title title text = Ret None ->
         ~ produced_by_district text n ->
         map name rec = ALL_FIELD_NAMES /\ In (mkField n VNone) rec).
Proof.
  split.
  - intros fields Hne Hnd Hall.
    destruct (_normalize_ok fields Hne Hnd Hall)
      as (rec & Hrun & Hnames & Hincl & Hnull).
    exists rec. split; [assumption|].
    split; [rewrite Hnames; apply ALL_FIELD_NAMES_sorted|].
    split; [now rewrite <- Hnames, length_map|].
    split.
    { rewrite Hnames. apply NoDup_count_occ'.
      apply StronglySorted_slt_NoDup, ALL_FIELD_NAMES_sorted. }
    split; [assumption|]. split; [assumption|].
    intros text ctx Hprod. unfold extract_fields. now rewrite Hprod.
  - intros text ctx rec title n names Hrun Htitle Hn Habsent Hdistrict.
    split.
    + destruct (extract_fields_normal_form _ _ _ Hrun)
        as (fields & _ & _ & _ & _ & Hnames & _).
      assumption.
    + eapply extract_fields_absent_section; eassumption.
Qed.

(** C3.  A list of produced fields with a name outside [ALL_FIELD_NAMES]
    makes [_normalize] fail its assertion, and so [extract_fields] when these
    are the fields it produced: no record is returned. *)
Theorem unknown_field_name_aborts (fields : list Field) :
  (exists f, In f fields /\ ~ In (name f) ALL_FIELD_NAMES) ->
  _normalize fields = Raise AssertionError
  /\ (forall text ctx,
         produced_fields text ctx = Ret fields ->
         extract_fields text ctx = Raise AssertionError).
Proof.
  intros Hbad. pose proof (_normalize_rejects_unknown fields Hbad) as Hrun.
  split; [assumption|].
  intros text ctx Hprod. unfold extract_fields. now rewrite Hprod.
Qed.

End NormalizeClaims.

Lemma normalize_completes_schema_witness :
  exists rec,
    _normalize [mkField "notes" (VStr "Shots fired."); mkField "latitude" VNone]
    = Ret rec
    /\ In (mkField "sources" VNone) rec
    /\ In (mkField "notes" (VStr "Shots fired.")) rec.
Proof.
  destruct (proj1 (@normalize_completes_schema example_numeric)
              [mkField "notes" (VStr "Shots fired.");
               mkField "latitude" VNone])
    as (rec & Hrun & _ & _ & _ & Hnull & Hkeep & _).
  - discriminate.
  - repeat constructor; simpl; intuition discriminate.
  - intros f [<-|[<-|[]]]; rewrite ALL_FIELD_NAMES_eq; simpl; tauto.
  - exists rec. split; [exact Hrun|]. split.
    + apply Hnull; [rewrite ALL_FIELD_NAMES_eq; simpl; tauto|].
      simpl. intuition discriminate.
    + apply Hkeep. now left.
Defined.

(** C1, as stated, fails: this document has no Location section, yet the
    record has a latitude, taken from the District line "Latitude: 5". *)
Lemma absent_section_field_not_null :
  _find_div_with_title "Location" district_latitude_doc = Ret None
  /\ In ("Location", ["latitude"; "longitude"; "location_description"])
        SECTION_FIELDS
  /\ exists rec,
       @extract_fields example_numeric district_latitude_doc example_ctx
       = Ret rec
       /\ In (mkField "latitude" (VInt 5)) rec
       /\ ~ In (mkField "latitude" VNone) rec.
Proof.
  split; [reflexivity|]. split; [simpl; tauto|].
  eexists. split; [vm_compute; reflexivity|].
  split; [simpl; tauto|].
  simpl. intuition discriminate.
Qed.

Lemma unknown_field_name_aborts_witness :
  _normalize [mkField "gun_color" (VStr "0::Black")] = Raise AssertionError.
Proof.
  apply (@unknown_field_name_aborts example_numeric
           [mkField "gun_color" (VStr "0::Black")]).
  exists (mkField "gun_color" (VStr "0::Black")). split; [now left|].
  rewrite ALL_FIELD_NAMES_eq. simpl. intuition discriminate.
Defined.

(** ** Claims on serialization *)

Lemma find_None_iff {A : Type} (q : A -> bool) (l : list A) :
  find q l = None <-> forall x, In x l -> q x = false.
Proof.
  split; [apply find_none|].
  induction l as [|x l IH]; simpl; intros Hq; [reflexivity|].
  rewrite (Hq x (or_introl eq_refl)). apply IH. intros y Hy. apply Hq. now right.
Qed.

Lemma find_Some_exists {A : Type} (q : A -> bool) (l : list A) :
  (exists y, find q l = Some y) <-> exists x, In x l /\ q x = true.
Proof.
  split.
  - intros (y & Hy). exists y. now apply find_some in Hy.
  - intros (x & Hx & Hq). destruct (find q l) as [y|] eqn:E; [eauto|].
    rewrite (find_none _ _ E x Hx) in Hq. discriminate.
Qed.

Lemma _stringify_list_cases (lst : list string) (sep : string) :
  ((exists item, In item lst /\ Py.contains sep item = true)
   /\ _stringify_list lst sep = Raise AssertionError)
  \/ ((forall item, In item lst -> Py.contains sep item = false)
      /\ _stringify_list lst sep = Ret (Py.join sep lst)).
Proof.
  unfold _stringify_list.
  destruct (find (fun item => Py.contains sep item) lst) as [v|] eqn:E.
  - left. split; [|reflexivity]. apply find_Some_exists. eauto.
  - right. split; [|reflexivity]. now apply find_None_iff.
Qed.

(** A key or a value of a mapping that holds one of the two separators. *)
Definition has_separator (insep outsep s : string) : bool :=
  Py.contains insep s || Py.contains outsep s.

Lemma combine_map_fst_snd {A B C D : Type} (f : A -> C) (g : B -> D)
  (d : list (A * B)) :
  combine (map (fun kv => f (fst kv)) d) (map (fun kv => g (snd kv)) d)
  = map (fun kv => (f (fst kv), g (snd kv))) d.
Proof. induction d as [|[k v] d IH]; simpl; [reflexivity | now rewrite IH]. Qed.

Lemma _stringify_dict_cases {K V : Type} `{Str K} `{Str V}
  (d : list (K * V)) (insep outsep : string) :
  ((exists kv, In kv d
               /\ (has_separator insep outsep (str (fst kv)) = true
                   \/ has_separator insep outsep (str (snd kv)) = true))
   /\ _stringify_dict d insep outsep = Raise AssertionError)
  \/ ((forall kv, In kv d ->
                  has_separator insep outsep (str (fst kv)) = false
                  /\ has_separator insep outsep (str (snd kv)) = false)
      /\ _stringify_dict d insep outsep
         = Ret (Py.join outsep
                  (map (fun kv => str (fst kv) ++ insep ++ str (snd kv)) d))).
Proof.
  unfold _stringify_dict. fold (has_separator insep outsep).
  destruct (find (has_separator insep outsep)
              (map (fun kv => str (fst kv)) d)) as [k|] eqn:Ek.
  - left. split; [|reflexivity].
    apply find_some in Ek as [Hin Hk].
    apply in_map_iff in Hin as (kv & <- & Hkv). eauto.
  - destruct (find (has_separator insep outsep)
                (map (fun kv => str (snd kv)) d)) as [v|] eqn:Ev.
    + left. split; [|reflexivity].
      apply find_some in Ev as [Hin Hv].
      apply in_map_iff in Hin as (kv & <- & Hkv). eauto.
    + right. split.
      * intros kv Hkv. split.
        -- apply (find_none _ _ Ek). now apply in_map with (f := fun kv => str (fst kv)).
        -- apply (find_none _ _ Ev). now apply in_map with (f := fun kv => str (snd kv)).
      * rewrite combine_map_fst_snd, map_map. reflexivity.
Qed.

(** C4 (amended).  [_stringify_list] fails its assertion if and only if some
    item contains the separator, and otherwise returns the items joined with
    it; [_stringify_dict] fails its assertion if and only if the string of
    some key or value contains one of its two separators, and otherwise
    returns the [key::value] pairs joined with the outer separator.  So a
    returned encoding is made of items, keys and values none of which
    contains a separator; nothing is said of separators that arise where two
    of them meet. *)
Theorem stringify_fails_iff_separator :
  (forall (lst : list string) (sep : string),
      (_stringify_list lst sep = Raise AssertionError
       <-> exists item, In item lst /\ Py.contains sep item = true)
      /\ ((forall item, In item lst -> Py.contains sep item = false) ->
          _stringify_list lst sep = Ret (Py.join sep lst))
      /\ (forall s, _stringify_list lst sep = Ret s ->
                    s = Py.join sep lst
                    /\ forall item, In item lst ->
                                    Py.contains sep item = false))
  /\ (forall (K V : Type) (SK : Str K) (SV : Str V) (d : list (K * V))
             (insep outsep : string),
         (_stringify_dict d insep outsep = Raise AssertionError
          <-> exists kv, In kv d
                         /\ (has_separator insep outsep (str (fst kv)) = true
                             \/ has_separator insep outsep (str (snd kv))
                                = true))
         /\ ((forall kv, In kv d ->
                 has_separator insep outsep (str (fst kv)) = false
                 /\ has_separator insep outsep (str (snd kv)) = false) ->
             _stringify_dict d insep outsep
             = Ret (Py.join outsep
                      (map (fun kv => str (fst kv) ++ insep ++ str (snd kv))
                         d)))
         /\ (forall s, _stringify_dict d insep outsep = Ret s ->
                       forall kv, In kv d ->
                         has_separator insep outsep (str (fst kv)) = false
                         /\ has_separator insep outsep (str (snd kv))
                            = false)).
Proof.
  split.
  - intros lst sep.
    destruct (_stringify_list_cases lst sep) as [[Hex E]|[Hall E]];
      rewrite E; (split; [|split]).
    + tauto.
    + intros Hno. destruct Hex as (item & Hin & Hc).
      rewrite (Hno item Hin) in Hc. discriminate.
    + discriminate.
    + split; [discriminate|]. intros (item & Hin & Hc).
      rewrite (Hall item Hin) in Hc. discriminate.
    + reflexivity.
    + intros s [= <-]. auto.
  - intros K V SK SV d insep outsep.
    destruct (_stringify_dict_cases d insep outsep) as [[Hex E]|[Hall E]];
      rewrite E; (split; [|split]).
    + tauto.
    + intros Hno. destruct Hex as (kv & Hin & Hc).
      destruct (Hno kv Hin) as [H1 H2]. rewrite H1, H2 in Hc.
      destruct Hc; discriminate.
    + discriminate.
    + split; [discriminate|]. intros (kv & Hin & Hc).
      destruct (Hall kv Hin) as [H1 H2]. rewrite H1, H2 in Hc.
      destruct Hc; discriminate.
    + reflexivity.
    + intros s _. exact Hall.
Qed.

Lemma stringify_fails_iff_separator_witness :
  _stringify_list ["Shot - Wounded/Injured"; "Drive-by"] "||"
  = Ret "Shot - Wounded/Injured||Drive-by"
  /\ _stringify_dict [(0%Z, "Handgun"); (1%Z, "Handgun")] "::" "||"
     = Ret "0::Handgun||1::Handgun".
Proof.
  split.
  - apply (proj1 stringify_fails_iff_separator).
    intros item [<-|[<-|[]]]; reflexivity.
  - destruct (proj2 stringify_fails_iff_separator Z string _ _
                [(0%Z, "Handgun"); (1%Z, "Handgun")] "::" "||")
      as (_ & Hret & _).
    apply Hret. intros kv [<-|[<-|[]]]; split; reflexivity.
Defined.

(** C4, as stated, fails in its last sentence: two different lists are both
    accepted and get the same encoding, because a separator arises where
    "a|" meets the separator and "|b". *)
Lemma stringify_list_ambiguous :
  _stringify_list ["a|"; "|b"] "||" = Ret "a||||b"
  /\ _stringify_list ["a"; ""; "b"] "||" = Ret "a||||b"
  /\ ["a|"; "|b"] <> ["a"; ""; "b"].
Proof. repeat split. discriminate. Qed.

(** ** Claims on [_getdict] *)

(** The label of a line: [line[:index]]; and its value text:
    [line[index + 2:]]. *)
Definition label (line : string) : string :=
  Py.slice_to line (Py.find ":" line).

Definition value_text (line : string) : string :=
  Py.slice_from line (Py.find ":" line + 2).

(** Two non-empty lines of a group with the same label. *)
Definition duplicated_label (lines : list string) : Prop :=
  exists l1 l2 before between after,
    lines = (before ++ l1 :: between ++ l2 :: after)%list
    /\ l1 <> "" /\ l2 <> "" /\ label l1 = label l2.

Definition nonempty (line : string) : bool := negb (String.eqb line "").

Lemma dict_mem_string {V : Type} (k : string) (d : list (string * V)) :
  dict_mem k d = true <-> In k (map fst d).
Proof.
  unfold dict_mem. rewrite existsb_exists, in_map_iff. split.
  - intros (kv & Hin & E). apply String.eqb_eq in E. eauto.
  - intros (kv & E & Hin). exists kv. split; [assumption|].
    subst. apply String.eqb_refl.
Qed.

Lemma dict_set_new {V : Type} (k : string) (v : V) (d : list (string * V)) :
  dict_mem k d = false -> dict_set k v d = (d ++ [(k, v)])%list.
Proof.
  induction d as [|[k' v'] d IH]; [reflexivity|].
  cbn [dict_mem existsb fst]. change (existsb _ d) with (dict_mem k d).
  cbn [dict_set app]. destruct (key_eqb k' k); [discriminate|].
  intros Hd. cbn [orb] in Hd. now rewrite (IH Hd).
Qed.

Section GetDict.
Context {V : Type} (apply : string -> result V).

Definition getdict_body (d : list (string * V)) (line : string)
  : result (list (string * V)) :=
  if String.eqb line EmptyString then Ret d
  else
    let index := Py.find ":" line in
    assert (negb (index =? -1)%Z) ;;
    let key := Py.slice_to line index in
    let value := Py.slice_from line (index + 2) in
    assert (negb (dict_mem key d)) ;;
    value <- apply value ;;
    Ret (dict_set key value d).

Lemma _getdict_unfold (lines : list string) :
  _getdict lines apply = for_each lines getdict_body [].
Proof. reflexivity. Qed.

Lemma getdict_body_Ret (d d' : list (string * V)) (line : string) :
  getdict_body d line = Ret d' ->
  (line = "" /\ d' = d)
  \/ (line <> "" /\ Py.find ":" line <> (-1)%Z
      /\ ~ In (label line) (map fst d)
      /\ exists v, apply (value_text line) = Ret v
                   /\ d' = (d ++ [(label line, v)])%list).
Proof.
  unfold getdict_body. destruct (String.eqb_spec line "") as [->|Hne].
  - intros [= <-]. now left.
  - intros Hrun. right. split; [assumption|].
    destruct (Z.eqb_spec (Py.find ":" line) (-1)) as [E|Hidx];
      [discriminate|]. simpl in Hrun.
    fold (label line) in Hrun. fold (value_text line) in Hrun.
    destruct (dict_mem (label line) d) eqn:Hmem; [discriminate|].
    simpl in Hrun. apply bind_Ret in Hrun as (v & Hv & Hrun).
    injection Hrun as <-. split; [assumption|]. split.
    + rewrite <- dict_mem_string. congruence.
    + exists v. split; [assumption|]. now apply dict_set_new.
Qed.

Lemma getdict_body_Raise (d : list (string * V)) (line : string)
  (e : exception) :
  getdict_body d line = Raise e ->
  e = AssertionError \/ apply (value_text line) = Raise e.
Proof.
  unfold getdict_body. destruct (String.eqb line ""); [discriminate|].
  destruct (negb _); [|intros [= <-]; now left]. simpl.
  destruct (negb _); [|intros [= <-]; now left]. simpl.
  fold (value_text line). destruct (apply (value_text line)); simpl;
    [discriminate|]. intros [= <-]. now right.
Qed.

(** The keys after the loop: those before it, then the labels of the
    non-empty lines, in order. *)
Lemma getdict_loop_keys (lines : list string) :
  forall d d',
    for_each lines getdict_body d = Ret d' ->
    map fst d' = (map fst d ++ map label (filter nonempty lines))%list.
Proof.
  induction lines as [|line lines IH]; simpl; intros d d' Hrun.
  - injection Hrun as <-. now rewrite app_nil_r.
  - apply bind_Ret in Hrun as (d1 & Hstep & Hrun).
    rewrite (IH _ _ Hrun).
    apply getdict_body_Ret in Hstep
      as [[-> ->]|(Hne & _ & _ & v & _ & ->)].
    + reflexivity.
    + unfold nonempty. apply String.eqb_neq in Hne. rewrite Hne. simpl.
      now rewrite map_app, <- app_assoc.
Qed.

Lemma getdict_loop_NoDup (lines : list string) :
  forall d d',
    for_each lines getdict_body d = Ret d' ->
    NoDup (map fst d) -> NoDup (map fst d').
Proof.
  induction lines as [|line lines IH]; simpl; intros d d' Hrun Hnd.
  - now injection Hrun as <-.
  - apply bind_Ret in Hrun as (d1 & Hstep & Hrun).
    apply (IH _ _ Hrun).
    apply getdict_body_Ret in Hstep
      as [[_ ->]|(_ & _ & Hnew & v & _ & ->)]; [assumption|].
    rewrite map_app. simpl.
    apply NoDup_app; [assumption | repeat constructor; easy |].
    intros k Hk [<-|[]]. contradiction.
Qed.

Lemma getdict_loop_Raise (lines : list string) (e : exception) :
  forall d,
    for_each lines getdict_body d = Raise e ->
    e = AssertionError
    \/ exists line, In line lines /\ apply (value_text line) = Raise e.
Proof.
  induction lines as [|line lines IH]; simpl; intros d Hrun; [discriminate|].
  destruct (getdict_body d line) as [d1|e1] eqn:Hstep; simpl in Hrun.
  - destruct (IH _ Hrun) as [->|(l & Hl & Hraise)]; [now left|].
    right. exists l. auto.
  - injection Hrun as <-.
    destruct (getdict_body_Raise _ _ _ Hstep) as [->|Hraise]; [now left|].
    right. exists line. auto.
Qed.

Lemma duplicated_label_not_NoDup (lines : list string) :
  duplicated_label lines -> ~ NoDup (map label (filter nonempty lines)).
Proof.
  intros (l1 & l2 & before & between & after & -> & H1 & H2 & E) Hnd.
  rewrite filter_app in Hnd. simpl in Hnd. rewrite filter_app in Hnd.
  simpl in Hnd. unfold nonempty in Hnd at 2 4.
  apply String.eqb_neq in H1, H2. rewrite H1, H2 in Hnd. simpl in Hnd.
  rewrite map_app in Hnd. simpl in Hnd.
  apply NoDup_remove_2 in Hnd. apply Hnd.
  apply in_or_app. right. rewrite map_app. apply in_or_app. right.
  rewrite E. now left.
Qed.

Lemma _getdict_keys_NoDup (lines : list string) (d : list (string * V)) :
  _getdict lines apply = Ret d -> NoDup (map fst d).
Proof.
  rewrite _getdict_unfold. intros Hrun.
  apply (getdict_loop_NoDup _ _ _ Hrun). constructor.
Qed.

Lemma _getdict_duplicate_fails (lines : list string) :
  duplicated_label lines ->
  exists e,
    _getdict lines apply = Raise e
    /\ (e = AssertionError
        \/ exists line, In line lines /\ apply (value_text line) = Raise e).
Proof.
  intros Hdup. rewrite _getdict_unfold.
  destruct (for_each lines getdict_body []) as [d|e] eqn:Hrun.
  - exfalso. apply (duplicated_label_not_NoDup _ Hdup).
    pose proof (getdict_loop_keys _ _ _ Hrun) as Hkeys. simpl in Hkeys.
    rewrite <- Hkeys. apply (getdict_loop_NoDup _ _ _ Hrun). constructor.
  - exists e. split; [reflexivity|]. eapply getdict_loop_Raise; eassumption.
Qed.

(** [_getdicts] parses every group. *)
Lemma _getdicts_groups (linegroups : list (list string))
  (ds2 : list (string * list (Z * V))) :
  _getdicts linegroups apply = Ret ds2 ->
  forall lines, In lines linegroups ->
    exists d, _getdict lines apply = Ret d.
Proof.
  unfold _getdicts. intros Hrun.
  apply bind_Ret in Hrun as (st & Hloop & _). revert Hloop.
  generalize (@nil (Z * list (string * V)), 0%Z).
  induction linegroups as [|g gs IH]; simpl; intros st0 Hloop lines Hin;
    [contradiction|].
  apply bind_Ret in Hloop as (st1 & Hstep & Hloop).
  destruct st0 as [ds groupno].
  apply bind_Ret in Hstep as (d & Hd & _).
  destruct Hin as [<-|Hin]; [eauto|]. eapply IH; eassumption.
Qed.

End GetDict.

Section GetDictClaims.
Context `{Numeric}.

Lemma attribute_fields_groups (pre : string) (linegroups : list (list string))
  (fs : list Field) :
  attribute_fields pre linegroups = Ret fs ->
  forall lines, In lines linegroups ->
    exists d, _getdict lines apply_None = Ret d.
Proof.
  unfold attribute_fields. intros Hrun.
  apply bind_Ret in Hrun as (ds2 & Hds2 & _).
  eapply _getdicts_groups; eassumption.
Qed.

Lemma duplicate_label_aborts_extraction (text : soup) (ctx : Context)
  (d : div) (lines : list string) :
  ((_find_div_with_title "Participants" text = Ret (Some d)
    \/ _find_div_with_title "Guns Involved" text = Ret (Some d))
   /\ In lines (uls d))
  \/ (_find_div_with_title "District" text = Ret (Some d)
      /\ lines = map Py.strip (brs d)) ->
  duplicated_label lines ->
  forall rec, extract_fields text ctx <> Ret rec.
Proof.
  intros Hwhere Hdup rec Hrun.
  unfold extract_fields in Hrun.
  apply bind_Ret in Hrun as (fields & Hprod & _).
  unfold produced_fields in Hprod.
  apply bind_Ret in Hprod as (ic & _ & Hprod).
  apply bind_Ret in Hprod as (notes & _ & Hprod).
  apply bind_Ret in Hprod as (sources & _ & Hprod).
  apply bind_Ret in Hprod as (loc & _ & Hprod).
  apply bind_Ret in Hprod as (part & Hpart & Hprod).
  apply bind_Ret in Hprod as (guns & Hguns & Hprod).
  apply bind_Ret in Hprod as (dist & Hdist & _).
  assert (Hok : exists V (apply : string -> result V) kvs,
             _getdict lines apply = Ret kvs).
  { destruct Hwhere as [[[Hfind|Hfind] Hin]|[Hfind ->]].
    - unfold _extract_participant_fields in Hpart. rewrite Hfind in Hpart.
      cbn [bind] in Hpart.
      destruct (attribute_fields_groups _ _ _ Hpart lines Hin) as (kvs & E).
      eauto.
    - unfold _extract_guns_involved_fields in Hguns. rewrite Hfind in Hguns.
      cbn [bind] in Hguns.
      destruct (p d) as [p_text|]; [|discriminate].
      destruct (Re.search guns_involved_re p_text) as [m|]; [|discriminate].
      apply bind_Ret in Hguns as (n & _ & Hguns).
      apply bind_Ret in Hguns as (rest & Hrest & _).
      destruct (attribute_fields_groups _ _ _ Hrest lines Hin) as (kvs & E).
      eauto.
    - unfold _extract_district_fields in Hdist. rewrite Hfind in Hdist.
      cbn [bind] in Hdist.
      apply bind_Ret in Hdist as (kvs & E & _). eauto. }
  destruct Hok as (V & apply & kvs & E).
  destruct (_getdict_duplicate_fails apply lines Hdup) as (e & Hraise & _).
  congruence.
Qed.

(** C10 (amended).  When two non-empty lines of a group have the same text
    before their first colon, [_getdict] fails: with an assertion error, or
    with the error that the conversion of a value raised on one of the lines
    (the integer conversion of district lines); for participant and gun
    lists, whose values are not converted, it is the assertion error.  A
    mapping that [_getdict] returns has each label at most once, and a
    document with such a group in its participant lists, gun lists or
    district lines yields no record. *)
Theorem duplicate_label_aborts {V : Type} (lines : list string)
  (apply : string -> result V) :
  duplicated_label lines ->
  (exists e,
      _getdict lines apply = Raise e
      /\ (e = AssertionError
          \/ exists line, In line lines /\ apply (value_text line) = Raise e))
  /\ _getdict lines apply_None = Raise AssertionError
  /\ (forall lines' d, _getdict lines' apply = Ret d -> NoDup (map fst d))
  /\ (forall text ctx d,
         ((_find_div_with_title "Participants" text = Ret (Some d)
           \/ _find_div_with_title "Guns Involved" text = Ret (Some d))
          /\ In lines (uls d))
         \/ (_find_div_with_title "District" text = Ret (Some d)
             /\ lines = map Py.strip (brs d)) ->
         forall rec, extract_fields text ctx <> Ret rec).
Proof.
  intros Hdup. split; [now apply _getdict_duplicate_fails|]. split.
  - destruct (_getdict_duplicate_fails apply_None lines Hdup)
      as (e & Hraise & [->|(line & _ & Habs)]); [assumption|].
    discriminate Habs.
  - split; [intros lines' d; apply _getdict_keys_NoDup|].
    intros text ctx d Hwhere.
    now apply duplicate_label_aborts_extraction with (d := d) (lines := lines).
Qed.

End GetDictClaims.

Lemma duplicate_label_aborts_witness :
  _getdict ["Type: Handgun"; ""; "Type: Rifle"] apply_None
  = Raise AssertionError.
Proof.
  apply (@duplicate_label_aborts example_numeric string
           ["Type: Handgun"; ""; "Type: Rifle"] apply_None).
  exists "Type: Handgun", "Type: Rifle", [], [""], [].
  repeat split; discriminate.
Defined.

(** C10, as stated, fails for district lines: the two lines have the same
    label, but the failure is the [ValueError] of [int] on the first one,
    not an assertion error. *)
Lemma duplicate_label_other_error :
  duplicated_label ["B: x"; "B: 2"]
  /\ _getdict ["B: x"; "B: 2"] Py.int = Raise ValueError.
Proof.
  split; [|reflexivity].
  exists "B: x", "B: 2", [], [], []. repeat split; discriminate.
Qed.

(** ** Strings and the matcher *)

Lemma append_nil_r (s : string) : s ++ "" = s.
Proof. induction s as [|c s IH]; simpl; [reflexivity | now rewrite IH]. Qed.

Lemma append_assoc (a b c : string) : (a ++ b) ++ c = a ++ (b ++ c).
Proof. induction a as [|x a IH]; simpl; [reflexivity | now rewrite IH]. Qed.

Lemma length_append (a b : string) :
  String.length (a ++ b) = (String.length a + String.length b)%nat.
Proof. induction a as [|x a IH]; simpl; [reflexivity | now rewrite IH]. Qed.

Lemma take_length_append (a b : string) : Py.take (String.length a) (a ++ b) = a.
Proof. induction a as [|x a IH]; simpl; [now destruct b | now rewrite IH]. Qed.

Lemma take_length (s : string) : Py.take (String.length s) s = s.
Proof. induction s as [|c s IH]; simpl; [reflexivity | now rewrite IH]. Qed.

Lemma take_captured (a b : string) :
  Py.take (String.length (a ++ b) - String.length b) (a ++ b) = a.
Proof.
  rewrite length_append, Nat.add_sub. apply take_length_append.
Qed.

Lemma all_chars_append (q : ascii -> bool) (a b : string) :
  Py.all_chars q (a ++ b) = Py.all_chars q a && Py.all_chars q b.
Proof.
  induction a as [|x a IH]; simpl; [reflexivity|].
  now rewrite IH, andb_assoc.
Qed.

Lemma all_chars_weaken (q r : ascii -> bool) (s : string) :
  (forall c, q c = true -> r c = true) ->
  Py.all_chars q s = true -> Py.all_chars r s = true.
Proof.
  intros Hqr. induction s as [|c s IH]; simpl; [reflexivity|].
  intros Hs. apply andb_true_iff in Hs as [Hc Hs].
  now rewrite (Hqr c Hc), IH.
Qed.

(** The last character read once [a] has been read after [prev]. *)
Fixpoint last_char (prev : option ascii) (a : string) : option ascii :=
  match a with
  | EmptyString => prev
  | String c a' => last_char (Some c) a'
  end.

Section Star.
Variables (q : ascii -> bool) (caps : Re.captures) (k : Re.cont).

(** A repetition gives up nothing when its first character is refused. *)
Lemma star_refused (prev : option ascii) (s : string) :
  match s with
  | String c _ => q c = false
  | EmptyString => True
  end ->
  Re.star q prev s caps k = k prev s caps.
Proof. destruct s as [|c s]; simpl; [reflexivity|]. now intros ->. Qed.

(** Where the rest fails after every longer repetition, the repetition
    reads nothing. *)
Lemma star_gives_back (b : string) :
  (forall pv u t, u <> "" -> b = u ++ t -> k pv t caps = None) ->
  forall prev, Re.star q prev b caps k = k prev b caps.
Proof.
  induction b as [|c b IH]; intros Hfail prev; simpl; [reflexivity|].
  destruct (q c); [|reflexivity].
  rewrite IH.
  - now rewrite (Hfail (Some c) (String c "") b).
  - intros pv u t Hu ->. apply (Hfail pv (String c u) t); [discriminate|].
    reflexivity.
Qed.

(** Greedy repetition: [a] is read whole when the rest succeeds after it and
    fails after every longer repetition. *)
Lemma star_reads (a b : string) (r : Re.captures) :
  Py.all_chars q a = true ->
  (forall pv u t, u <> "" -> b = u ++ t -> k pv t caps = None) ->
  forall prev,
    k (last_char prev a) b caps = Some r ->
    Re.star q prev (a ++ b) caps k = Some r.
Proof.
  intros Ha Hfail. induction a as [|c a IH]; intros prev Hk; simpl in *.
  - now rewrite star_gives_back.
  - apply andb_true_iff in Ha as [Hc Ha]. rewrite Hc.
    now rewrite (IH Ha (Some c) Hk).
Qed.
End Star.

(** A property of characters that holds of each of the 256. *)
Definition all_ascii : list ascii := map ascii_of_nat (seq 0 256).

Lemma forall_ascii (P : ascii -> bool) :
  forallb P all_ascii = true -> forall c, P c = true.
Proof.
  intros Hall c. rewrite forallb_forall in Hall. apply Hall.
  rewrite <- (ascii_nat_embedding c). apply in_map, in_seq.
  pose proof (nat_ascii_bounded c). lia.
Qed.

Section StarRefused.
Variables (q : ascii -> bool) (caps : Re.captures) (k : Re.cont).

(** Greedy repetition up to a character that is refused. *)
Lemma star_reads_to_refused (a b : string) (r : Re.captures) :
  Py.all_chars q a = true ->
  match b with
  | String c _ => q c = false
  | EmptyString => True
  end ->
  forall prev,
    k (last_char prev a) b caps = Some r ->
    Re.star q prev (a ++ b) caps k = Some r.
Proof.
  intros Ha Hb. induction a as [|c a IH]; intros prev Hk; simpl in *.
  - now rewrite star_refused.
  - apply andb_true_iff in Ha as [Hc Ha]. rewrite Hc.
    now rewrite (IH Ha (Some c) Hk).
Qed.
End StarRefused.

Lemma search_from_here (r : Re.regex) (prev : option ascii) (s : string)
  (caps : Re.captures) :
  Re.match_here r prev s = Some caps -> Re.search_from r prev s = Some caps.
Proof. intros Hhere. destruct s; simpl; now rewrite Hhere. Qed.

(** A pattern that begins with [^] matches at the start only. *)
Lemma search_from_Bol (r : Re.regex) (s : string) :
  forall c, Re.search_from (Re.Seq Re.Bol r) (Some c) s = None.
Proof.
  induction s as [|x s IH]; intros c; [reflexivity|].
  cbn [Re.search_from]. unfold Re.match_here at 1. cbn [Re.matches].
  apply IH.
Qed.

(** A match somewhere in the subject is found, or one before it. *)
Lemma search_from_finds (r : Re.regex) (a b : string) :
  forall prev,
    Re.match_here r (last_char prev a) b <> None ->
    Re.search_from r prev (a ++ b) <> None.
Proof.
  induction a as [|c a IH]; intros prev Hhere.
  - cbn [append last_char] in *.
    destruct (Re.match_here r prev b) as [caps|] eqn:E; [|contradiction].
    now rewrite (search_from_here _ _ _ _ E).
  - cbn [append Re.search_from].
    destruct (Re.match_here r prev (String c (a ++ b))); [discriminate|].
    now apply IH.
Qed.

(** Literal text is refused where the subject does not begin with it. *)
Lemma lit_refuses (s : string) :
  forall (line : string) (prev : option ascii) (caps : Re.captures)
         (k : Re.cont),
    prefix s line = false ->
    Re.matches (Re.lit s) prev line caps k = None.
Proof.
  induction s as [|c s IH]; intros line prev caps k Hpre.
  - now destruct line.
  - destruct line as [|x line].
    + unfold Re.lit. destruct s; reflexivity.
    + change (prefix (String c s) (String x line))
        with (if ascii_dec c x then prefix s line else false) in Hpre.
      unfold Re.lit in *. destruct s as [|c' s'].
      * cbn [Re.lit_with Re.matches].
        destruct (ascii_dec c x) as [->|Hne]; [now destruct line|].
        apply Ascii.eqb_neq in Hne. now rewrite Hne.
      * change (Re.lit_with Ascii.eqb (String c (String c' s')))
          with (Re.Seq (Re.One (Ascii.eqb c))
                  (Re.lit_with Ascii.eqb (String c' s'))).
        cbn [Re.matches].
        destruct (ascii_dec c x) as [->|Hne].
        -- rewrite Ascii.eqb_refl. now apply IH.
        -- apply Ascii.eqb_neq in Hne. now rewrite Hne.
Qed.

Lemma last_char_digit (ds : string) (d0 : ascii) :
  Py.is_digit d0 = true ->
  Py.all_chars Py.is_digit ds = true ->
  Re.is_word_opt (last_char (Some d0) ds) = true.
Proof.
  revert d0. induction ds as [|c ds IH]; intros d0 Hd0 Hds; simpl.
  - unfold Py.is_word. now rewrite Hd0.
  - simpl in Hds. apply andb_true_iff in Hds as [Hc Hds]. now apply IH.
Qed.

Lemma icase_digit (c : ascii) :
  Py.is_digit c = true -> Re.icase Py.is_digit c = true.
Proof. intros Hc. unfold Re.icase. now rewrite Hc. Qed.

(** ** The patterns of the Location section *)

(** A token of a Geolocation line: no white space and no comma in it. *)
Definition plain_token (s : string) : bool :=
  Py.all_chars (fun c => negb (Py.is_space c) && negb (Ascii.eqb c ",")) s.

(** What [\s+] reads: white space, at least one character of it. *)
Definition blank (s : string) : bool :=
  negb (String.eqb s "") && Py.all_chars Py.is_space s.

Lemma plain_token_any (s : string) :
  plain_token s = true -> Py.all_chars Re.any s = true.
Proof.
  apply all_chars_weaken. intros c Hc.
  apply andb_true_iff in Hc as [Hs _]. unfold Re.any.
  destruct (Ascii.eqb_spec c Re.newline) as [->|]; [discriminate|reflexivity].
Qed.

Lemma plain_token_head (s rest : string) (c : ascii) :
  plain_token s = true ->
  Py.is_space c = false ->
  match s ++ String c rest with
  | String x _ => Py.is_space x = false
  | EmptyString => True
  end.
Proof.
  destruct s as [|x s]; simpl; [easy|].
  intros Hs _. apply andb_true_iff in Hs as [Hx _].
  apply andb_true_iff in Hx as [Hx _]. now destruct (Py.is_space x).
Qed.

Lemma plain_token_head_end (s : string) :
  plain_token s = true ->
  match s with
  | String x _ => Py.is_space x = false
  | EmptyString => True
  end.
Proof.
  destruct s as [|x s]; simpl; [easy|].
  intros Hs. apply andb_true_iff in Hs as [Hx _].
  apply andb_true_iff in Hx as [Hx _]. now destruct (Py.is_space x).
Qed.

Lemma space_is_no_comma (c : ascii) :
  Py.is_space c = true -> negb (Ascii.eqb c ",") = true.
Proof.
  intros Hc. destruct (Ascii.eqb_spec c ",") as [->|]; [discriminate Hc|].
  reflexivity.
Qed.

(** After the comma of a Geolocation line no later position starts with a
    comma. *)
Lemma no_later_comma (ws lon u t : string) :
  Py.all_chars Py.is_space ws = true ->
  plain_token lon = true ->
  u <> "" ->
  String "," (ws ++ lon) = u ++ t ->
  match t with
  | String c _ => Ascii.eqb c "," = false
  | EmptyString => True
  end.
Proof.
  intros Hws Hlon Hu E. destruct u as [|x u]; [contradiction|].
  simpl in E. injection E as _ E.
  assert (Hall : Py.all_chars (fun c => negb (Ascii.eqb c ","))
                   (ws ++ lon) = true).
  { rewrite all_chars_append. apply andb_true_iff. split.
    - revert Hws. apply all_chars_weaken. exact space_is_no_comma.
    - revert Hlon. apply all_chars_weaken. intros c Hc.
      now apply andb_true_iff in Hc as [_ Hc]. }
  rewrite E, all_chars_append in Hall.
  apply andb_true_iff in Hall as [_ Ht].
  destruct t as [|c t]; [easy|]. simpl in Ht.
  apply andb_true_iff in Ht as [Hc _]. now destruct (Ascii.eqb c ",").
Qed.

(** A line "Geolocation:<blank><lat>,<blank><lon>" matches the pattern, with
    the two tokens as its groups. *)
Lemma geolocation_re_matches (ws1 lat ws2 lon : string) :
  blank ws1 = true ->
  plain_token lat = true ->
  blank ws2 = true ->
  plain_token lon = true ->
  Re.search geolocation_re ("Geolocation:" ++ ws1 ++ lat ++ "," ++ ws2 ++ lon)
  = Some [(2%nat, lon); (1%nat, lat)].
Proof.
  intros Hws1 Hlat Hws2 Hlon. unfold Re.search. apply search_from_here.
  unfold blank in Hws1, Hws2.
  apply andb_true_iff in Hws1 as [Hne1 Hws1].
  apply andb_true_iff in Hws2 as [Hne2 Hws2].
  destruct ws1 as [|c1 w1]; [discriminate Hne1|].
  destruct ws2 as [|c2 w2]; [discriminate Hne2|].
  cbn [Py.all_chars] in Hws1, Hws2.
  apply andb_true_iff in Hws1 as [Hc1 Hw1].
  apply andb_true_iff in Hws2 as [Hc2 Hw2].
  unfold Re.match_here, geolocation_re. cbn [Re.seq].
  remember (Re.Seq (Re.Group 1 (Re.Star Re.any))
              (Re.Seq (Re.chr ",")
                 (Re.Seq (Re.plus Py.is_space)
                    (Re.Seq (Re.Group 2 (Re.Star Re.any)) Re.Eol))))
    as tail eqn:Etail.
  remember Py.is_space as sp eqn:Esp.
  simpl. rewrite Hc1. subst tail.
  apply star_reads_to_refused.
  - exact Hw1.
  - subst sp. apply plain_token_head; [assumption | reflexivity].
  - cbn [Re.matches].
    apply star_reads with (a := lat) (b := String "," (String c2 w2 ++ lon)).
    + now apply plain_token_any.
    + intros pv u t Hu E.
      assert (Hsp2 : Py.all_chars Py.is_space (String c2 w2) = true).
      { subst sp. cbn [Py.all_chars]. now rewrite Hc2, Hw2. }
      pose proof (no_later_comma _ lon u t Hsp2 Hlon Hu E) as Hc.
      destruct t as [|c t]; unfold Re.chr; cbn [Re.matches]; [reflexivity|].
      rewrite Ascii.eqb_sym, Hc. reflexivity.
    + change (String "," (String c2 w2 ++ lon))
        with ("," ++ String c2 w2 ++ lon) at 1 2.
      rewrite take_captured.
      unfold Re.chr, Re.plus. cbn [Re.matches append].
      rewrite Ascii.eqb_refl, Hc2.
      apply star_reads_to_refused.
      * exact Hw2.
      * subst sp. now apply plain_token_head_end.
      * cbn [Re.matches]. rewrite <- (append_nil_r lon) at 1.
        apply star_reads with (a := lon) (b := "").
        -- now apply plain_token_any.
        -- intros pv u t Hu E. destruct u; [contradiction | discriminate].
        -- cbn [String.eqb orb String.length].
           now rewrite Nat.sub_0_r, take_length.
Qed.

(** A line that does not begin with "Geolocation:" does not match it. *)
Lemma geolocation_needs_prefix (line : string) :
  prefix "Geolocation:" line = false ->
  Re.search geolocation_re line = None.
Proof.
  intros Hpre. unfold Re.search, geolocation_re. cbn [Re.seq].
  assert (Hhere : forall rest,
             Re.match_here (Re.Seq Re.Bol (Re.Seq (Re.lit "Geolocation:") rest))
               None line = None).
  { intros rest. unfold Re.match_here. cbn [Re.matches].
    now apply lit_refuses. }
  destruct line as [|c line]; cbn [Re.search_from]; rewrite Hhere;
    [reflexivity|].
  apply search_from_Bol.
Qed.

(** A line of digits followed by a character that can go on neither the
    number nor a word matches the house-number pattern. *)
Lemma house_number_re_matches (digits : string) (next : ascii)
  (rest : string) :
  digits <> "" ->
  Py.all_chars Py.is_digit digits = true ->
  Py.is_word next = false ->
  next <> "-"%char ->
  Re.search house_number_re (digits ++ String next rest) = Some [].
Proof.
  intros Hne Hdigits Hword Hminus.
  destruct digits as [|d0 ds]; [contradiction|].
  cbn [Py.all_chars] in Hdigits.
  apply andb_true_iff in Hdigits as [Hd0 Hds].
  assert (Hclass : Re.icase (fun c => Py.is_digit c || Py.is_lower c
                                      || Ascii.eqb c "-") next = false).
  { apply Ascii.eqb_neq in Hminus.
    pose proof (forall_ascii
                  (fun c => Py.is_word c || Ascii.eqb c "-"
                            || negb (Re.icase
                                       (fun c => Py.is_digit c || Py.is_lower c
                                                 || Ascii.eqb c "-") c))
                  eq_refl next) as Hall.
    cbv beta in Hall. rewrite Hword, Hminus in Hall.
    now apply negb_true_iff in Hall. }
  assert (Hnd : Re.icase Py.is_digit next = false).
  { pose proof (forall_ascii
                  (fun c => Py.is_word c || negb (Re.icase Py.is_digit c))
                  eq_refl next) as Hall.
    cbv beta in Hall. rewrite Hword in Hall.
    now apply negb_true_iff in Hall. }
  unfold Re.search. apply search_from_here.
  unfold Re.match_here, house_number_re.
  cbn [Re.seq Re.plus Re.matches append].
  rewrite (icase_digit d0 Hd0).
  apply star_reads_to_refused.
  - revert Hds. apply all_chars_weaken. exact icase_digit.
  - exact Hnd.
  - cbn [Re.matches]. rewrite star_refused by exact Hclass.
    cbn [Re.matches Re.head].
    rewrite (last_char_digit ds d0 Hd0 Hds).
    cbn [Re.is_word_opt]. rewrite Hword. reflexivity.
Qed.

(** The words of the street-suffix pattern. *)
Definition STREET_WORDS : list string :=
  ["st"; "street"; "rd"; "road"; "dr"; "drive"; "blvd"; "boulevard";
   "ave"; "avenue"; "hwy"; "highway"].

(** The spellings of a word of small letters that differ in case only. *)
Fixpoint case_variants (s : string) : list string :=
  match s with
  | EmptyString => [EmptyString]
  | String x s' =>
      flat_map (fun t => [String x t; String (Py.upper_char x) t])
        (case_variants s')
  end.

Lemma lower_char_letter (c x : ascii) :
  Py.is_lower x = true ->
  Py.lower_char c = x ->
  c = x \/ c = Py.upper_char x.
Proof.
  intros Hx <-.
  pose proof (forall_ascii
                (fun c => negb (Py.is_lower (Py.lower_char c))
                          || Ascii.eqb c (Py.lower_char c)
                          || Ascii.eqb c (Py.upper_char (Py.lower_char c)))
                eq_refl c) as Hall.
  cbv beta in Hall. rewrite Hx in Hall. cbn [negb orb] in Hall.
  apply orb_true_iff in Hall as [E|E]; apply Ascii.eqb_eq in E; auto.
Qed.

Lemma case_variants_complete (s : string) :
  Py.all_chars Py.is_lower s = true ->
  forall w, Py.lower w = s -> In w (case_variants s).
Proof.
  induction s as [|x s IH]; intros Hs w Hw.
  - destruct w; [now left | discriminate].
  - destruct w as [|c w]; [discriminate|].
    cbn [Py.lower] in Hw. injection Hw as Hc Hw.
    cbn [Py.all_chars] in Hs. apply andb_true_iff in Hs as [Hx Hs].
    cbn [case_variants]. apply in_flat_map. exists w.
    split; [now apply IH|].
    destruct (lower_char_letter c x Hx Hc) as [->| ->]; simpl; auto.
Qed.

(** Whether every spelling of the word, with or without a full stop after
    it, matches the street-suffix pattern at the start of a subject. *)
Definition street_word_accepted (word : string) : bool :=
  forallb (fun w =>
             is_match (Re.match_here street_suffix_re None w)
             && is_match (Re.match_here street_suffix_re None (w ++ ".")))
    (case_variants word).

Lemma street_words_accepted : forallb street_word_accepted STREET_WORDS = true.
Proof. vm_compute. reflexivity. Qed.

(** At the start of a match of the street-suffix pattern, no more of what
    is before it counts than whether it is a word character. *)
Lemma street_suffix_re_boundary (prev : option ascii) (s : string) :
  Re.is_word_opt prev = false ->
  Re.match_here street_suffix_re prev s
  = Re.match_here street_suffix_re None s.
Proof.
  intros Hprev. unfold Re.match_here, street_suffix_re.
  cbn [Re.seq Re.matches]. rewrite Hprev. reflexivity.
Qed.

(** A line that ends in one of the street words, in any capitals, with or
    without a full stop, the word standing alone or after a character that
    is not of a word, matches the street-suffix pattern. *)
Lemma street_suffix_re_matches (before word : string) (stop : bool) :
  In (Py.lower word) STREET_WORDS ->
  Re.is_word_opt (last_char None before) = false ->
  Re.search street_suffix_re
    (before ++ word ++ (if stop then "." else "")) <> None.
Proof.
  intros Hword Hbefore. unfold Re.search. apply search_from_finds.
  rewrite (street_suffix_re_boundary _ _ Hbefore).
  pose proof street_words_accepted as Hall.
  rewrite forallb_forall in Hall. specialize (Hall _ Hword).
  unfold street_word_accepted in Hall. rewrite forallb_forall in Hall.
  assert (Hin : In word (case_variants (Py.lower word))).
  { apply case_variants_complete; [|reflexivity].
    clear - Hword. cbn [STREET_WORDS In] in Hword.
    repeat (destruct Hword as [<-|Hword]; [reflexivity|]). contradiction. }
  specialize (Hall _ Hin). apply andb_true_iff in Hall as [H1 H2].
  destruct stop.
  - destruct (Re.match_here street_suffix_re None (word ++ "."));
      [discriminate | discriminate H2].
  - rewrite append_nil_r.
    destruct (Re.match_here street_suffix_re None word);
      [discriminate | discriminate H1].
Qed.

(** ** Claims on the Location section *)

Lemma describes_address_iff (ctx : Context) (line : string) :
  describes_address ctx line = true
  <-> line = address ctx
      \/ Re.search house_number_re line <> None
      \/ Re.search street_suffix_re line <> None.
Proof.
  unfold describes_address, is_match.
  rewrite !orb_true_iff, String.eqb_eq.
  destruct (Re.search house_number_re line), (Re.search street_suffix_re line);
    intuition congruence.
Qed.

(** A generator whose iterations all return yields what they yield, in
    order. *)
Lemma for_yield_concat {A B : Type} (body : A -> result (list B))
  (xs : list A) (yields : list (list B)) :
  Forall2 (fun x ys => body x = Ret ys) xs yields ->
  for_yield xs body = Ret (List.concat yields).
Proof.
  induction 1 as [|x ys xs yields Hx _ IH]; [reflexivity|].
  cbn [for_yield List.concat]. now rewrite Hx, IH.
Qed.

Section LocationClaims.
Context `{Numeric}.

(** A line that is no Geolocation line and that one of the tests for what
    is known already holds of yields nothing. *)
Lemma location_span_discarded (ctx : Context) (line : string) :
  Re.search geolocation_re line = None ->
  (line = address ctx
   \/ Re.search house_number_re line <> None
   \/ Re.search street_suffix_re line <> None
   \/ (Py.contains "," line = true
       /\ Py.endswith line (state ctx) = true)) ->
  location_span ctx line = Ret [].
Proof.
  intros Hgeo Hwhy. unfold location_span.
  destruct (String.eqb line ""); [reflexivity|]. rewrite Hgeo.
  assert (E : describes_city_and_state ctx line || describes_address ctx line
              = true).
  { apply orb_true_iff. rewrite describes_address_iff.
    unfold describes_city_and_state. rewrite andb_true_iff. tauto. }
  now rewrite E.
Qed.

(** C8.  The fields of the Location section are what its span texts yield,
    one after the other.  A line "Geolocation:<blank><lat>,<blank><lon>",
    the two being tokens that [float] reads, yields the fields latitude and
    longitude with these numbers; a line that does not begin with
    "Geolocation:" is never read so.  Of the other lines, one that equals
    the known address, or that the house-number or street-suffix pattern
    matches, or that has a comma and ends with the known state, yields
    nothing: so does each line of digits followed by a character that is of
    no word and no hyphen, and each line ending in a street word such as
    "St" or "Avenue." that stands alone or after a character of no word.  An
    empty line yields nothing, and every other line yields the field
    location_description with the line as its text. *)
Theorem location_lines (ctx : Context) :
  (forall s d yields,
      _find_div_with_title "Location" s = Ret (Some d) ->
      Forall2 (fun line fields => location_span ctx line = Ret fields)
        (spans d) yields ->
      _extract_location_fields s ctx = Ret (List.concat yields))
  /\ (forall ws1 lat ws2 lon x y,
         blank ws1 = true ->
         plain_token lat = true ->
         blank ws2 = true ->
         plain_token lon = true ->
         py_float lat = Ret x ->
         py_float lon = Ret y ->
         location_span ctx ("Geolocation:" ++ ws1 ++ lat ++ "," ++ ws2 ++ lon)
         = Ret [mkField "latitude" (VFloat x);
                mkField "longitude" (VFloat y)])
  /\ (forall line,
         prefix "Geolocation:" line = false ->
         Re.search geolocation_re line = None)
  /\ (forall line,
         Re.search geolocation_re line = None ->
         (line = address ctx
          \/ Re.search house_number_re line <> None
          \/ Re.search street_suffix_re line <> None
          \/ (Py.contains "," line = true
              /\ Py.endswith line (state ctx) = true)) ->
         location_span ctx line = Ret [])
  /\ (forall digits next rest,
         digits <> "" ->
         Py.all_chars Py.is_digit digits = true ->
         Py.is_word next = false ->
         next <> "-"%char ->
         location_span ctx (digits ++ String next rest) = Ret [])
  /\ (forall before word (stop : bool),
         let line := before ++ word ++ (if stop then "." else "") in
         In (Py.lower word) STREET_WORDS ->
         Re.is_word_opt (last_char None before) = false ->
         prefix "Geolocation:" line = false ->
         location_span ctx line = Ret [])
  /\ location_span ctx "" = Ret []
  /\ (forall line,
         line <> "" ->
         Re.search geolocation_re line = None ->
         line <> address ctx ->
         Re.search house_number_re line = None ->
         Re.search street_suffix_re line = None ->
         (Py.contains "," line = false
          \/ Py.endswith line (state ctx) = false) ->
         location_span ctx line
         = Ret [mkField "location_description" (VStr line)]).
Proof.
  split; [|split; [|split; [|split; [|split; [|split; [|split]]]]]].
  - intros s d yields Hfind Hyields. unfold _extract_location_fields.
    rewrite Hfind. cbn [bind]. now apply for_yield_concat.
  - intros ws1 lat ws2 lon x y Hws1 Hlat Hws2 Hlon Hx Hy.
    unfold location_span.
    rewrite (geolocation_re_matches ws1 lat ws2 lon Hws1 Hlat Hws2 Hlon).
    change (Re.group 1 [(2%nat, lon); (1%nat, lat)]) with lat.
    change (Re.group 2 [(2%nat, lon); (1%nat, lat)]) with lon.
    rewrite Hx, Hy. reflexivity.
  - exact geolocation_needs_prefix.
  - intros line. apply location_span_discarded.
  - intros digits next rest Hne Hdigits Hword Hminus.
    apply location_span_discarded.
    + apply geolocation_needs_prefix.
      destruct digits as [|d0 ds]; [contradiction|].
      cbn [Py.all_chars] in Hdigits.
      apply andb_true_iff in Hdigits as [Hd0 _]. cbn [append].
      change (prefix "Geolocation:" (String d0 (ds ++ String next rest)))
        with (if ascii_dec "G" d0
              then prefix "eolocation:" (ds ++ String next rest)
              else false).
      destruct (ascii_dec "G" d0) as [<-|]; [discriminate Hd0|reflexivity].
    + right. left.
      rewrite (house_number_re_matches digits next rest Hne Hdigits Hword
                 Hminus).
      discriminate.
  - intros before word stop line Hword Hbefore Hpre.
    apply location_span_discarded.
    + now apply geolocation_needs_prefix.
    + right. right. left. now apply street_suffix_re_matches.
  - reflexivity.
  - intros line Hne Hgeo Haddr Hhouse Hstreet Hcity. unfold location_span.
    apply String.eqb_neq in Hne. rewrite Hne, Hgeo.
    assert (E : describes_city_and_state ctx line || describes_address ctx line
                = false).
    { apply orb_false_iff. split.
      - unfold describes_city_and_state. apply andb_false_iff. tauto.
      - destruct (describes_address ctx line) eqn:Ed; [|reflexivity].
        apply describes_address_iff in Ed. intuition congruence. }
    now rewrite E.
Qed.

End LocationClaims.

(** A Location section with a line of each kind, for an incident whose
    known address is "Main and Elm" in Austin, Texas. *)
Definition crossing_ctx : Context :=
  {| address := "Main and Elm"; city_or_county := "Austin";
     state := "Texas" |}.

Definition location_div : div :=
  {| spans := ["Main and Elm"; "Austin, Texas"; "45 Elm";
               "Corner of 5th Ave."; "Geolocation: 38.9, -77.0"; "";
               "Behind the mall"];
     uls := []; lis := []; p := None; anchors := []; brs := [] |}.

Definition location_doc : soup :=
  {| block_system_main := Some [("Location", location_div)] |}.

Lemma location_lines_witness :
  @_extract_location_fields example_numeric location_doc crossing_ctx
  = Ret [mkField "latitude" (VFloat 0x1.3733333333333p+5%float);
         mkField "longitude" (VFloat (-77)%float);
         mkField "location_description" (VStr "Behind the mall")].
Proof.
  destruct (@location_lines example_numeric crossing_ctx)
    as (Hsection & Hgeo & Hnot & Hdrop & Hnumber & Hstreet & Hempty & Hkeep).
  apply (Hsection location_doc location_div
           [[]; []; []; [];
            [mkField "latitude" (VFloat 0x1.3733333333333p+5%float);
             mkField "longitude" (VFloat (-77)%float)];
            []; [mkField "location_description" (VStr "Behind the mall")]]);
    [reflexivity|].
  repeat apply Forall2_cons; [| | | | | | | apply Forall2_nil].
  - apply Hdrop; [now apply Hnot | now left].
  - apply Hdrop; [now apply Hnot|].
    right. right. right. split; reflexivity.
  - apply (Hnumber "45" " "%char "Elm"); [discriminate | reflexivity
                                     | reflexivity | discriminate].
  - apply (Hstreet "Corner of 5th " "Ave" true);
      [cbn [Py.lower STREET_WORDS In]; tauto | reflexivity | reflexivity].
  - apply (Hgeo " " "38.9" " " "-77.0"); reflexivity.
  - exact Hempty.
  - apply Hkeep; [discriminate | now apply Hnot | discriminate
                  | reflexivity | reflexivity | now left].
Defined.

(** ** Claims on the Guns Involved section *)

(** A document whose only section is Guns Involved, with the given
    paragraph and lists. *)
Definition guns_doc (p_text : string) (lists : list (list string)) : soup :=
  {| block_system_main :=
       Some [("Guns Involved",
              {| spans := []; uls := lists; lis := []; p := Some p_text;
                 anchors := []; brs := [] |})] |}.

(** The value a record has at a name. *)
Definition field_value (rec : list Field) (n : string) : option pyval :=
  option_map value (find (fun f => String.eqb (name f) n) rec).

(** C7, the failing input.  The paragraph "2 guns involved!" does not end
    with the full stop of "<N> gun(s) involved.", yet the section is
    accepted and the record has n_guns_involved = 2: the last [.] of the
    pattern is not escaped and stands for any character. *)
Theorem guns_paragraph_last_character_unchecked :
  Py.endswith "2 guns involved!" "." = false
  /\ Re.search guns_involved_re "2 guns involved!" = Some [(1%nat, "2")]
  /\ _extract_guns_involved_fields (guns_doc "2 guns involved!" [])
     = Ret [mkField "n_guns_involved" (VInt 2)]
  /\ exists rec,
       @extract_fields example_numeric (guns_doc "2 guns involved!" [])
         example_ctx = Ret rec
       /\ field_value rec "n_guns_involved" = Some (VInt 2).
Proof.
  split; [reflexivity|]. split; [reflexivity|]. split; [reflexivity|].
  eexists. split; vm_compute; reflexivity.
Qed.

(** ** The fetch session *)

(** The world with more events on its trace. *)
Definition logged (w : world) (events : list event) : world :=
  {| attempts := attempts w; samples := samples w; system := system w;
     trace := (trace w ++ events)%list |}.

(** The mime type that [_get_fields_from_incident_url] computes. *)
Definition mimetype_of (resp : response) : string :=
  let ctype := Py.lower (match content_type resp with
                         | Some v => v
                         | None => ""
                         end) in
  Py.slice_to ctype (Py.find ";" ctype).

Definition ctx_of (row : Row) : Context :=
  {| address := row_address row; city_or_county := row_city_or_county row;
     state := row_state row |}.

(** The tag that [_status_from_exception] returns on a given platform. *)
Definition status_tag (system : string) (exc : exception) : string :=
  match exc with
  | CancelledError => "<canceled>"
  | ClientOSError errno =>
      if String.eqb system "Windows" && (errno =? 10054)%Z
      then "<conn closed>" else ""
  | TimeoutError => "<timed out>"
  | _ => ""
  end.

(** The exceptions of [scraper.get] after which [_get] goes on: those that
    [except Exception] catches and that get a tag. *)
Definition retried (system : string) (exc : exception) : bool :=
  is_Exception exc && negb (String.eqb (status_tag system exc) "").

Definition is_sleep (e : event) : bool :=
  match e with
  | Sleep _ => true
  | _ => false
  end.

Lemma retried_iff (system : string) (exc : exception) :
  retried system exc = true
  <-> exc = TimeoutError \/ (exc = ClientOSError 10054 /\ system = "Windows").
Proof.
  unfold retried. split.
  - destruct exc; try discriminate; cbn [is_Exception status_tag andb].
    + now left.
    + destruct (String.eqb_spec system "Windows") as [->|]; [|discriminate].
      destruct (Z.eqb_spec errno 10054) as [->|]; [|discriminate].
      right. now split.
  - intros [->|[-> ->]]; reflexivity.
Qed.

Section SessionLemmas.
Context `{Numeric}.

Lemma _status_from_exception_tag (exc : exception) (w : world) :
  _status_from_exception exc w = Some (Ret (status_tag (system w) exc), w).
Proof. now destruct exc. Qed.

Lemma _compute_wait_ok (average_wait rng_base wait : Z) (z : float)
  (a : list attempt) (zs : list float) (sys : string) (tr : list event) :
  wait_of_sample average_wait rng_base z = Ret wait ->
  _compute_wait average_wait rng_base
    {| attempts := a; samples := z :: zs; system := sys; trace := tr |}
  = Some (Ret wait,
          {| attempts := a; samples := zs; system := sys;
             trace := (tr ++ [LogFirstCall "_compute_wait"])%list |}).
Proof.
  unfold wait_of_sample, _compute_wait. intros Hw.
  apply bind_Ret in Hw as (l & Hl & Hw).
  unfold io_bind, log_first_call, emit, lift, standard_normal. simpl.
  now rewrite Hl, Hw.
Qed.

(** What a call of [_compute_wait] changes: one sample less, one routine
    entry more. *)
Lemma _compute_wait_effect (average_wait rng_base : Z) (w w' : world)
  (r : result Z) :
  _compute_wait average_wait rng_base w = Some (r, w') ->
  attempts w' = attempts w
  /\ system w' = system w
  /\ trace w' = (trace w ++ [LogFirstCall "_compute_wait"])%list
  /\ (forall wait, r = Ret wait ->
        exists z, samples w = z :: samples w'
                  /\ wait_of_sample average_wait rng_base z = Ret wait).
Proof.
  unfold _compute_wait, wait_of_sample, io_bind, log_first_call, emit, lift,
    standard_normal. cbn [attempts samples system trace].
  destruct (math_log average_wait rng_base) as [l|e].
  - destruct (samples w) as [|z zs]; [discriminate|].
    intros [= <- <-]. cbn [attempts samples system trace bind].
    repeat split. intros wait Hw. exists z. split; [reflexivity|assumption].
  - intros [= <- <-]. cbn [attempts samples system trace].
    repeat split. discriminate.
Qed.

(** The wait, the log line and the sleep of one retry, then the rest of
    the loop. *)
Definition retry_then (turns : nat) (url : string)
  (average_wait rng_base : Z) (st : status) (w : world)
  : option (result response * world) :=
  match _compute_wait average_wait rng_base w with
  | Some (Ret wait, w') =>
      _get_loop turns url average_wait rng_base
        (logged w' [LogRetry url st wait; Sleep wait])
  | Some (Raise e, w') => Some (Raise e, w')
  | None => None
  end.

(** One turn of the loop, by what the call of [scraper.get] does. *)
Lemma _get_loop_unfold (turns : nat) (url : string)
  (average_wait rng_base : Z) (w : world) :
  _get_loop (S turns) url average_wait rng_base w
  = match attempts w with
    | [] => None
    | a :: rest =>
        let w1 := {| attempts := rest; samples := samples w;
                     system := system w; trace := trace w |} in
        match a with
        | Responds resp =>
            if (status_code resp <? 500)%Z then Some (Ret resp, w1)
            else Some (Raise AttributeError, w1)
        | Fails exc =>
            if retried (system w) exc
            then retry_then turns url average_wait rng_base
                   (StatusTag (status_tag (system w) exc)) w1
            else Some (Raise exc, w1)
        end
    end.
Proof.
  cbn [_get_loop]. unfold io_bind at 1. unfold try_except_else at 1.
  unfold scraper_get at 1.
  destruct (attempts w) as [|a rest]; [reflexivity|].
  destruct a as [resp|exc]; cbv zeta.
  - destruct (status_code resp <? 500)%Z; reflexivity.
  - unfold retried. destruct (is_Exception exc); [|reflexivity].
    unfold io_bind at 1. rewrite _status_from_exception_tag.
    cbn [system andb].
    destruct (String.eqb (status_tag (system w) exc) ""); [reflexivity|].
    cbn [negb]. unfold io_ret at 1, retry_then, io_bind at 1.
    destruct (_compute_wait average_wait rng_base _) as [[[wait|e] w3]|];
      try reflexivity.
    unfold io_bind at 1, _log_retry, emit at 1.
    unfold io_bind at 1, emit at 1, logged.
    cbn [attempts samples system trace]. now rewrite <- app_assoc.
Qed.

(** One turn of the loop on a response below 500. *)
Lemma _get_returns (url : string) (average_wait rng_base : Z)
  (resp : response) (rest : list attempt) (zs : list float)
  (sys : string) (tr : list event) :
  (status_code resp < 500)%Z ->
  _get url average_wait rng_base
    {| attempts := Responds resp :: rest; samples := zs;
       system := sys; trace := tr |}
  = Some (Ret resp,
          {| attempts := rest; samples := zs; system := sys; trace := tr |}).
Proof.
  intros Hst. unfold _get. cbn [attempts List.length].
  rewrite _get_loop_unfold. cbn [attempts samples system trace].
  destruct (Z.ltb_spec (status_code resp) 500) as [_|Hge]; [|lia].
  reflexivity.
Qed.

(** One turn of the loop on a response from 500 on: [release] raises. *)
Lemma _get_server_error (url : string) (average_wait rng_base : Z)
  (resp : response) (rest : list attempt) (zs : list float)
  (sys : string) (tr : list event) :
  (500 <= status_code resp)%Z ->
  _get url average_wait rng_base
    {| attempts := Responds resp :: rest; samples := zs;
       system := sys; trace := tr |}
  = Some (Raise AttributeError,
          {| attempts := rest; samples := zs; system := sys; trace := tr |}).
Proof.
  intros Hst. unfold _get. cbn [attempts List.length].
  rewrite _get_loop_unfold. cbn [attempts samples system trace].
  destruct (Z.ltb_spec (status_code resp) 500) as [Hlt|_]; [lia|].
  reflexivity.
Qed.

(** One turn of the loop on an exception that is not retried. *)
Lemma _get_transport_error_raised (url : string) (average_wait rng_base : Z)
  (exc : exception) (rest : list attempt) (zs : list float) (sys : string)
  (tr : list event) :
  retried sys exc = false ->
  _get url average_wait rng_base
    {| attempts := Fails exc :: rest; samples := zs; system := sys;
       trace := tr |}
  = Some (Raise exc,
          {| attempts := rest; samples := zs; system := sys; trace := tr |}).
Proof.
  intros Htag. unfold _get. cbn [attempts List.length].
  rewrite _get_loop_unfold. cbn [attempts samples system trace].
  now rewrite Htag.
Qed.

(** One turn of the loop on an exception that is retried. *)
Lemma _get_transport_error_retried (url : string) (average_wait rng_base : Z)
  (exc : exception) (rest : list attempt) (z : float) (zs : list float)
  (sys : string) (tr : list event) (wait : Z) :
  retried sys exc = true ->
  wait_of_sample average_wait rng_base z = Ret wait ->
  _get url average_wait rng_base
    {| attempts := Fails exc :: rest; samples := z :: zs; system := sys;
       trace := tr |}
  = _get url average_wait rng_base
      {| attempts := rest; samples := zs; system := sys;
         trace := (tr ++ [LogFirstCall "_compute_wait";
                          LogRetry url (StatusTag (status_tag sys exc)) wait;
                          Sleep wait])%list |}.
Proof.
  intros Htag Hw. unfold _get at 1. cbn [attempts List.length].
  rewrite _get_loop_unfold. cbn [attempts samples system trace].
  rewrite Htag. unfold retry_then.
  rewrite (_compute_wait_ok _ _ _ _ _ _ _ _ Hw).
  unfold _get, logged. cbn [attempts samples system trace].
  now rewrite <- app_assoc.
Qed.

(** The handler of [get_fields_from_incident_url], case by case. *)
Lemma get_fields_from_incident_url_unfold (row : Row) (w : world) :
  get_fields_from_incident_url row w
  = match _get_fields_from_incident_url row
            (logged w [LogFirstCall "get_fields_from_incident_url"]) with
    | Some (Raise exc, w') =>
        Some (Raise exc,
              if is_Exception exc && negb (is_404 exc)
              then logged w' [LogExtractionFailed (incident_url row);
                              PrintExc exc]
              else w')
    | other => other
    end.
Proof.
  unfold get_fields_from_incident_url, io_bind at 1, log_first_call, emit.
  fold (logged w [LogFirstCall "get_fields_from_incident_url"]).
  unfold try_except, try_except_else.
  destruct (_get_fields_from_incident_url row _) as [[[rec|exc] w']|];
    try reflexivity.
  destruct (is_Exception exc); [|reflexivity].
  unfold io_bind, io_ret, io_raise, _log_extraction_failed, emit.
  destruct (is_404 exc); [reflexivity|].
  unfold logged. simpl. now rewrite <- app_assoc.
Qed.

(** After [_get]: status, content type, extraction. *)
Lemma _get_fields_after_get (row : Row) (w w' : world) (resp : response) :
  _get (incident_url row) 10 2 w = Some (Ret resp, w') ->
  _get_fields_from_incident_url row w
  = if (400 <=? status_code resp)%Z && (status_code resp <? 600)%Z
    then Some (Raise (HTTPError (status_code resp)), w')
    else if String.eqb (mimetype_of resp) "text/htm"
            || String.eqb (mimetype_of resp) "text/html"
    then Some (extract_fields (text resp) (ctx_of row),
               logged w' [LogFirstCall "extract_fields"])
    else Some (Raise NotImplementedError, w').
Proof.
  intros Hget. unfold _get_fields_from_incident_url, io_bind at 1.
  rewrite Hget. unfold io_bind at 1, raise_for_status.
  destruct ((400 <=? status_code resp)%Z && (status_code resp <? 600)%Z);
    [reflexivity|].
  unfold io_ret at 1. unfold io_bind at 1. fold (mimetype_of resp).
  destruct (String.eqb (mimetype_of resp) "text/htm"
            || String.eqb (mimetype_of resp) "text/html"); [|reflexivity].
  reflexivity.
Qed.

(** When [_get] raises, so does [_get_fields_from_incident_url]. *)
Lemma _get_fields_get_raises (row : Row) (w w' : world) (exc : exception) :
  _get (incident_url row) 10 2 w = Some (Raise exc, w') ->
  _get_fields_from_incident_url row w = Some (Raise exc, w').
Proof.
  intros Hget. unfold _get_fields_from_incident_url, io_bind at 1.
  now rewrite Hget.
Qed.

End SessionLemmas.

(** ** Examples for the session *)

Definition html_response (code : Z) (body : soup) : response :=
  {| status_code := code; content_type := Some "text/html; charset=utf-8";
     text := body |}.

Definition example_row : Row :=
  {| incident_url := "http://www.gunviolencearchive.org/incident/1";
     row_address := "1200 Main St"; row_city_or_county := "Austin";
     row_state := "Texas" |}.

Definition no_sections_doc : soup := {| block_system_main := Some [] |}.

(** The scenario of two answers 503 and then 200 with a page. *)
Definition two_503_then_200 : list attempt :=
  [Responds (html_response 503 no_sections_doc);
   Responds (html_response 503 no_sections_doc);
   Responds (html_response 200 (guns_doc "2 guns involved."
                                  [["Type: Handgun"]; ["Type: Handgun"]]))].

(** ** Claims on the session *)

Section SessionClaims.
Context `{Numeric}.

(** C2, the failing input.  When [scraper.get] answers with a status of 500
    or more, [_get] does not release the response, wait and ask again: the
    call of [release], which a [requests.Response] does not have, raises
    [AttributeError] out of [_get].  One attempt is used, the attempts after
    it stay unasked, no sample is drawn, nothing is logged or slept; and
    [get_fields_from_incident_url] reports the [AttributeError] as a failed
    extraction of the row's URL. *)
Theorem server_error_is_not_retried (url : string)
  (average_wait rng_base : Z) (resp : response) (rest : list attempt)
  (zs : list float) (sys : string) (tr : list event) :
  (500 <= status_code resp)%Z ->
  _get url average_wait rng_base
    {| attempts := Responds resp :: rest; samples := zs; system := sys;
       trace := tr |}
  = Some (Raise AttributeError,
          {| attempts := rest; samples := zs; system := sys; trace := tr |})
  /\ forall row : Row,
       incident_url row = url ->
       get_fields_from_incident_url row
         {| attempts := Responds resp :: rest; samples := zs; system := sys;
            trace := tr |}
       = Some (Raise AttributeError,
               {| attempts := rest; samples := zs; system := sys;
                  trace := (tr ++ [LogFirstCall "get_fields_from_incident_url";
                                   LogExtractionFailed url;
                                   PrintExc AttributeError])%list |}).
Proof.
  intros Hst. split; [now apply _get_server_error|].
  intros row <-. rewrite get_fields_from_incident_url_unfold.
  unfold logged at 1. cbn [attempts samples system trace].
  erewrite _get_fields_get_raises by (now apply _get_server_error).
  cbn [is_Exception is_404 andb negb]. unfold logged.
  cbn [attempts samples system trace]. now rewrite <- app_assoc.
Qed.

(** C5, the failing input.  When [scraper.get] answers with status 404,
    [raise_for_status] raises the [HTTPError] of [requests], which is no
    [ClientResponseError]: the test for the quiet case fails, and the
    failure is logged with the row's URL and its traceback printed, like
    any other. *)
Theorem not_found_is_logged (row : Row) (resp : response)
  (rest : list attempt) (zs : list float) (sys : string) (tr : list event) :
  status_code resp = 404%Z ->
  get_fields_from_incident_url row
    {| attempts := Responds resp :: rest; samples := zs; system := sys;
       trace := tr |}
  = Some (Raise (HTTPError 404),
          {| attempts := rest; samples := zs; system := sys;
             trace := (tr ++ [LogFirstCall "get_fields_from_incident_url";
                              LogExtractionFailed (incident_url row);
                              PrintExc (HTTPError 404)])%list |})
  /\ is_404 (HTTPError 404) = false.
Proof.
  intros Hst. split; [|reflexivity].
  rewrite get_fields_from_incident_url_unfold.
  unfold logged at 1. cbn [attempts samples system trace].
  erewrite _get_fields_after_get by (apply _get_returns; lia).
  rewrite Hst. cbn [Z.leb Z.ltb Z.compare Pos.compare Pos.compare_cont andb].
  cbn [is_Exception is_404 andb negb]. unfold logged.
  cbn [attempts samples system trace]. now rewrite <- app_assoc.
Qed.

(** C6, the failing input.  When [scraper.get] raises
    [asyncio.CancelledError], the clause [except Exception] does not catch
    it: [_get] raises it at once, with no sample drawn and nothing logged or
    slept, although [_status_from_exception] has the tag '<canceled>' for
    it. *)
Theorem cancellation_is_not_retried (url : string)
  (average_wait rng_base : Z) (rest : list attempt) (zs : list float)
  (sys : string) (tr : list event) :
  _get url average_wait rng_base
    {| attempts := Fails CancelledError :: rest; samples := zs;
       system := sys; trace := tr |}
  = Some (Raise CancelledError,
          {| attempts := rest; samples := zs; system := sys; trace := tr |})
  /\ (forall w : world,
        _status_from_exception CancelledError w = Some (Ret "<canceled>", w))
  /\ is_Exception CancelledError = false.
Proof.
  split; [|split; reflexivity].
  now apply _get_transport_error_raised.
Qed.

End SessionClaims.

Lemma server_error_is_not_retried_witness :
  @get_fields_from_incident_url example_numeric example_row
    {| attempts := two_503_then_200; samples := [0%float; 0%float];
       system := "Linux"; trace := [] |}
  = Some (Raise AttributeError,
          {| attempts := tl two_503_then_200; samples := [0%float; 0%float];
             system := "Linux";
             trace := [LogFirstCall "get_fields_from_incident_url";
                       LogExtractionFailed (incident_url example_row);
                       PrintExc AttributeError] |}).
Proof.
  apply (proj2 (@server_error_is_not_retried example_numeric
                  (incident_url example_row) 10 2
                  (html_response 503 no_sections_doc) (tl two_503_then_200)
                  [0%float; 0%float] "Linux" [] ltac:(simpl; lia))).
  reflexivity.
Defined.

Lemma not_found_is_logged_witness :
  @get_fields_from_incident_url example_numeric example_row
    {| attempts := [Responds (html_response 404 no_sections_doc)];
       samples := []; system := "Linux"; trace := [] |}
  = Some (Raise (HTTPError 404),
          {| attempts := []; samples := []; system := "Linux";
             trace := [LogFirstCall "get_fields_from_incident_url";
                       LogExtractionFailed (incident_url example_row);
                       PrintExc (HTTPError 404)] |}).
Proof.
  apply (proj1 (@not_found_is_logged example_numeric example_row
                  (html_response 404 no_sections_doc) [] [] "Linux" []
                  eq_refl)).
Defined.

(** ** The wait: [np.ceil] and [int] on doubles *)

Lemma digits2_pos_size (p : positive) : digits2_pos p = Pos.size p.
Proof. induction p as [p IH|p IH|]; simpl; now rewrite ?IH. Qed.

Lemma size_bounds (p : positive) :
  (2 ^ (Z.pos (Pos.size p) - 1) <= Z.pos p < 2 ^ Z.pos (Pos.size p))%Z.
Proof.
  pose proof (Pos.size_gt p) as Hgt. pose proof (Pos.size_le p) as Hle.
  apply Pos2Z.pos_lt_pos in Hgt. apply Pos2Z.pos_le_pos in Hle.
  rewrite Pos2Z.inj_pow in Hgt, Hle.
  change (Z.pos p~0) with (2 * Z.pos p)%Z in Hle.
  split; [|assumption].
  assert (E : (2 ^ Z.pos (Pos.size p)
               = 2 * 2 ^ (Z.pos (Pos.size p) - 1))%Z).
  { rewrite <- Z.pow_succ_r by lia. f_equal. lia. }
  lia.
Qed.

Lemma size_unique (p : positive) (n : Z) :
  (2 ^ (n - 1) <= Z.pos p < 2 ^ n)%Z -> Z.pos (Pos.size p) = n.
Proof.
  intros [Hlo Hhi]. destruct (size_bounds p) as [Hlo' Hhi'].
  assert (Hn : (0 < n)%Z).
  { destruct (Z.ltb_spec 0 n) as [|Hle]; [assumption|].
    destruct (Z.eqb_spec n 0) as [->|Hne].
    - change (2 ^ 0)%Z with 1%Z in Hhi. lia.
    - rewrite Z.pow_neg_r in Hhi by lia. lia. }
  assert (H1 : (n - 1 < Z.pos (Pos.size p))%Z).
  { apply (Z.pow_lt_mono_r_iff 2); lia. }
  assert (H2 : (Z.pos (Pos.size p) - 1 < n)%Z).
  { apply (Z.pow_lt_mono_r_iff 2); lia. }
  lia.
Qed.

(** [int] reads back a small integer from its double. *)
Lemma exact_int_float_of_small (q : positive) :
  (Z.pos q < 2 ^ 53)%Z ->
  exact_int (float_of_small q) = Ret (Z.pos q).
Proof.
  intros Hq. unfold exact_int, float_of_small.
  destruct (size_bounds q) as [Hlo Hhi].
  set (shift := (53 - Z.pos (Pos.size q))%Z).
  assert (Hsize : (Z.pos (Pos.size q) <= 53)%Z).
  { destruct (Z.leb_spec (Z.pos (Pos.size q)) 53) as [|Hgt]; [assumption|].
    assert ((2 ^ 53 <= 2 ^ (Z.pos (Pos.size q) - 1))%Z)
      by (apply Z.pow_le_mono_r; lia).
    lia. }
  assert (Hshift : (0 <= shift <= 52)%Z) by (unfold shift; lia).
  assert (Hpow : (0 < 2 ^ shift)%Z) by (apply Z.pow_pos_nonneg; lia).
  assert (Hm : Z.pos (Z.to_pos (Z.pos q * 2 ^ shift))
               = (Z.pos q * 2 ^ shift)%Z) by (apply Z2Pos.id; lia).
  assert (Hdigits : Z.pos (Pos.size (Z.to_pos (Z.pos q * 2 ^ shift))) = 53%Z).
  { apply size_unique. rewrite Hm. split.
    - apply Z.le_trans with (2 ^ (Z.pos (Pos.size q) - 1) * 2 ^ shift)%Z.
      + rewrite <- Z.pow_add_r by lia.
        apply Z.pow_le_mono_r; unfold shift; lia.
      + apply Z.mul_le_mono_nonneg_r; lia.
    - apply Z.lt_le_trans with (2 ^ Z.pos (Pos.size q) * 2 ^ shift)%Z.
      + apply Z.mul_lt_mono_pos_r; lia.
      + rewrite <- Z.pow_add_r by lia.
        apply Z.pow_le_mono_r; unfold shift; lia. }
  rewrite Prim2SF_SF2Prim.
  - rewrite Hm. destruct (Z.leb_spec 0 (- shift)) as [Hz|Hnz].
    + assert (shift = 0%Z) as -> by lia. simpl. f_equal. lia.
    + rewrite Z.opp_involutive. f_equal. now apply Z.div_mul, Z.neq_sym, Z.lt_neq.
  - unfold valid_binary, bounded, canonical_mantissa, fexp, emin.
    rewrite digits2_pos_size, Hdigits.
    apply andb_true_iff. split.
    + apply Z.eqb_eq. unfold prec, emax. lia.
    + apply Z.leb_le. unfold prec, emax. lia.
Qed.

(** The mantissa of a double has at most 53 digits. *)
Lemma mantissa_bound (x : float) (neg : bool) (m : positive) (e : Z) :
  Prim2SF x = S754_finite neg m e -> (Z.pos m < 2 ^ 53)%Z.
Proof.
  intros Hx. pose proof (Prim2SF_valid x) as Hv. rewrite Hx in Hv.
  unfold valid_binary, bounded, canonical_mantissa, fexp, emin in Hv.
  apply andb_true_iff in Hv as [Hc _]. apply Z.eqb_eq in Hc.
  rewrite digits2_pos_size in Hc. unfold prec, emax in Hc.
  destruct (size_bounds m) as [_ Hhi].
  assert (Hs : (Z.pos (Pos.size m) <= 53)%Z) by lia.
  assert ((2 ^ Z.pos (Pos.size m) <= 2 ^ 53)%Z)
    by (apply Z.pow_le_mono_r; lia).
  lia.
Qed.

(** [int(np.ceil(p))] of a positive double [p = m * 2^e] is the least
    integer not below it, which is at least 1. *)
Lemma exact_int_ceil_positive (p : float) (m : positive) (e : Z) :
  Prim2SF p = S754_finite false m e ->
  exists n : Z,
    exact_int (exact_ceil p) = Ret n
    /\ (1 <= n)%Z
    /\ ((0 <= e)%Z -> n = (Z.pos m * 2 ^ e)%Z)
    /\ ((e < 0)%Z ->
        ((n - 1) * 2 ^ (- e) < Z.pos m <= n * 2 ^ (- e))%Z).
Proof.
  intros Hp. pose proof (mantissa_bound p false m e Hp) as Hm.
  unfold exact_ceil. rewrite Hp.
  destruct (Z.leb_spec 0 e) as [He|He].
  - exists (Z.pos m * 2 ^ e)%Z. unfold exact_int. rewrite Hp.
    destruct (Z.leb_spec 0 e) as [_|]; [|lia].
    assert (0 < 2 ^ e)%Z by (apply Z.pow_pos_nonneg; lia).
    split; [reflexivity|]. split; [nia|].
    split; [intros _; reflexivity | intros Hneg; lia].
  - set (d := (2 ^ (- e))%Z).
    assert (Hd : (2 <= d)%Z).
    { unfold d. change 2%Z with (2 ^ 1)%Z at 1.
      apply Z.pow_le_mono_r; lia. }
    pose proof (Z.div_mod (Z.pos m) d ltac:(lia)) as Hdm.
    pose proof (Z.mod_pos_bound (Z.pos m) d ltac:(lia)) as Hmod.
    assert (Hq0 : (0 <= Z.pos m / d)%Z) by (apply Z.div_pos; lia).
    set (n := (if (Z.pos m mod d =? 0)%Z
               then Z.pos m / d else Z.pos m / d + 1)%Z).
    assert (Hn : (1 <= n /\ n <= Z.pos m
                  /\ (n - 1) * d < Z.pos m <= n * d)%Z).
    { unfold n. destruct (Z.eqb_spec (Z.pos m mod d) 0) as [E|E]; nia. }
    destruct Hn as (Hn1 & Hnm & Hlo & Hhi).
    exists n. destruct n as [|q|q] eqn:En; try lia.
    rewrite exact_int_float_of_small by lia.
    split; [reflexivity|]. split; [lia|].
    split; [intros Hpos; lia | intros _; fold d; lia].
Qed.

(** ** Claims on the wait *)

Section WaitClaims.
Context `{Numeric}.

(** C9.  [_compute_wait(10, 2)] logs its first call, draws one sample [z]
    and returns [int(np.ceil(p))] for the double [p] that [**] gives for 2
    and [math.log(10, 2) + z].  With exact [np.ceil] and [int], the wait is
    the least integer not below [p], at least 1, when [p] is positive and
    finite; it is 0 when [p] is zero, and the call raises [OverflowError]
    when [p] is infinite.  When [p] is the double 10.000000000000002, which
    is what 2 to the power [math.log(10, 2)] is, the wait is 11. *)
Theorem wait_is_power_rounded_up (z l p : float) (a : list attempt)
  (zs : list float) (sys : string) (tr : list event) :
  (forall x, np_ceil x = exact_ceil x) ->
  (forall x, int_of_float x = exact_int x) ->
  math_log 10 2 = Ret l ->
  py_pow 2 (l + z)%float = p ->
  _compute_wait 10 2
    {| attempts := a; samples := z :: zs; system := sys; trace := tr |}
  = Some (wait_of_sample 10 2 z,
          {| attempts := a; samples := zs; system := sys;
             trace := (tr ++ [LogFirstCall "_compute_wait"])%list |})
  /\ (forall m e,
        Prim2SF p = S754_finite false m e ->
        exists n : Z,
          wait_of_sample 10 2 z = Ret n
          /\ (1 <= n)%Z
          /\ ((0 <= e)%Z -> n = (Z.pos m * 2 ^ e)%Z)
          /\ ((e < 0)%Z ->
              ((n - 1) * 2 ^ (- e) < Z.pos m <= n * 2 ^ (- e))%Z))
  /\ (forall s, Prim2SF p = S754_zero s -> wait_of_sample 10 2 z = Ret 0%Z)
  /\ (forall s, Prim2SF p = S754_infinity s ->
                wait_of_sample 10 2 z = Raise OverflowError)
  /\ (p = pow_2_log_10_2 -> wait_of_sample 10 2 z = Ret 11%Z).
Proof.
  intros Hceil Hint Hlog Hpow.
  assert (Hwait : wait_of_sample 10 2 z = exact_int (exact_ceil p)).
  { unfold wait_of_sample. rewrite Hlog. cbn [bind].
    now rewrite Hpow, Hceil, Hint. }
  split; [|split; [|split; [|split]]].
  - unfold _compute_wait, wait_of_sample, io_bind, log_first_call, emit,
      lift, standard_normal. cbn [attempts samples system trace].
    rewrite Hlog. reflexivity.
  - intros m e Hp. rewrite Hwait. now apply exact_int_ceil_positive.
  - intros s Hp. rewrite Hwait. unfold exact_ceil, exact_int.
    now rewrite Hp, Hp.
  - intros s Hp. rewrite Hwait. unfold exact_ceil, exact_int.
    now rewrite Hp, Hp.
  - intros Hp. rewrite Hwait, Hp. vm_compute. reflexivity.
Qed.

End WaitClaims.

Lemma wait_is_power_rounded_up_witness :
  exists n : Z,
    @wait_of_sample example_numeric 10 2 0 = Ret n
    /\ (1 <= n)%Z
    /\ ((n - 1) * 2 ^ 49 < 5629499534213121 <= n * 2 ^ 49)%Z.
Proof.
  destruct (@wait_is_power_rounded_up example_numeric 0%float log_10_2
              pow_2_log_10_2 [] [] "Linux" []
              (fun x => eq_refl) (fun x => eq_refl) eq_refl eq_refl)
    as (_ & Hpos & _ & _).
  destruct (Hpos 5629499534213121%positive (-49)%Z eq_refl)
    as (n & Hn & H1 & _ & Hceil).
  exists n. split; [exact Hn|]. split; [exact H1|].
  apply Hceil. reflexivity.
Defined.

(** C9, against the claim as it is stated.  With the doubles that CPython
    has for [math.log(10, 2)] and for 2 to that power, the wait for the
    sample 0 is 11 and not 10; and for the sample -2000 the power is zero
    and so is the wait, which is then not at least 1. *)
Lemma wait_at_zero_is_eleven :
  @wait_of_sample example_numeric 10 2 0 = Ret 11%Z
  /\ @wait_of_sample example_numeric 10 2 0 <> Ret 10%Z
  /\ @wait_of_sample example_numeric 10 2 (-2000) = Ret 0%Z
  /\ ~ (forall z n, @wait_of_sample example_numeric 10 2 z = Ret n ->
                    (1 <= n)%Z).
Proof.
  assert (H0 : @wait_of_sample example_numeric 10 2 0 = Ret 11%Z)
    by (vm_compute; reflexivity).
  assert (Hneg : @wait_of_sample example_numeric 10 2 (-2000) = Ret 0%Z)
    by (vm_compute; reflexivity).
  split; [exact H0|]. split; [rewrite H0; discriminate|].
  split; [exact Hneg|].
  intros Hall. specialize (Hall (-2000)%float 0%Z Hneg). lia.
Qed.

(** * Further properties of the extractor *)

(** ** [_normalize]: when it succeeds, how it fails, what it fixes *)




(** Two lists with the same names in the same order, without repetition,
    are equal as soon as one is included in the other. *)
Lemma same_names_incl_eq (l l' : list Field) :
  map name l = map name l' ->
  NoDup (map name l) ->
  incl l l' ->
  l = l'.
Proof.
  revert l'. induction l as [|x l IH]; intros [|y l'] Hnames Hnd Hincl;
    try discriminate; [reflexivity|].
  simpl in Hnames. injection Hnames as Hxy Hnames.
  inversion Hnd as [|? ? Hx Hnd']; subst.
  assert (Exy : x = y).
  { destruct (Hincl x (or_introl eq_refl)) as [E|Hin]; [now symmetry|].
    exfalso. apply Hx. rewrite Hnames. now apply in_map. }
  subst y. f_equal. apply IH; [assumption|assumption|].
  intros z Hz. destruct (Hincl z (or_intror Hz)) as [E|Hin]; [|assumption].
  exfalso. apply Hx. subst z. now apply in_map.
Qed.

(** The record is determined by the set of fields. *)
Lemma normal_form_unique (fields rec rec' : list Field) :
  normal_form fields rec -> normal_form fields rec' -> rec = rec'.
Proof.
  intros (Hn & Hincl & Hnull) (Hn' & Hincl' & Hnull').
  assert (Hnd : NoDup (map name rec)).
  { rewrite Hn. apply StronglySorted_slt_NoDup, ALL_FIELD_NAMES_sorted. }
  apply same_names_incl_eq; [congruence | assumption |].
  intros x Hx.
  assert (Hname : In (name x) ALL_FIELD_NAMES).
  { rewrite <- Hn. now apply in_map. }
  assert (Huniq : forall y, In y rec -> name y = name x -> y = x).
  { intros y Hy E. clear - Hnd Hx Hy E.
    induction rec as [|z rec IH]; [contradiction|].
    simpl in Hnd. inversion Hnd as [|? ? Hz Hnd']; subst.
    destruct Hx as [->|Hx], Hy as [->|Hy]; auto.
    - exfalso. apply Hz. rewrite <- E. now apply in_map.
    - exfalso. apply Hz. rewrite E. now apply in_map. }
  destruct (in_dec string_dec (name x) (map name fields)) as [Hin|Hnot].
  - apply in_map_iff in Hin as (f & Ef & Hf).
    rewrite <- (Huniq f (Hincl f Hf) Ef). now apply Hincl'.
  - rewrite <- (Huniq _ (Hnull _ Hname Hnot) eq_refl). now apply Hnull'.
Qed.





(** ** Documents without sections, documents without the main block *)

Section EdgeDocuments.
Context `{Numeric}.



End EdgeDocuments.



(** ** [_out_name] *)

(** The characters of a field name after its prefix: the label's, lowered,
    with an underscore for each space. *)
Definition out_char (c : ascii) : ascii :=
  if Ascii.eqb (Py.lower_char c) " " then "_"%char else Py.lower_char c.

Fixpoint map_chars (f : ascii -> ascii) (s : string) : string :=
  match s with
  | EmptyString => EmptyString
  | String c s' => String (f c) (map_chars f s')
  end.

Lemma out_char_spec (s : string) :
  Py.replace " " "_" (Py.lower s) = map_chars out_char s.
Proof. induction s as [|c s IH]; simpl; [reflexivity | now rewrite IH]. Qed.

Lemma out_char_idem (c : ascii) : out_char (out_char c) = out_char c.
Proof.
  apply Ascii.eqb_eq. revert c. apply forall_ascii. reflexivity.
Qed.

Lemma out_char_clean (c : ascii) :
  negb (Py.is_upper (out_char c) || Py.is_latin1_upper (out_char c))
  && negb (Ascii.eqb (out_char c) " ") = true.
Proof. revert c. apply forall_ascii. reflexivity. Qed.

Lemma map_chars_length (f : ascii -> ascii) (s : string) :
  String.length (map_chars f s) = String.length s.
Proof. induction s as [|c s IH]; simpl; [reflexivity | now rewrite IH]. Qed.

Lemma map_chars_all (f : ascii -> ascii) (q : ascii -> bool) (s : string) :
  (forall c, q (f c) = true) -> Py.all_chars q (map_chars f s) = true.
Proof.
  intros Hq. induction s as [|c s IH]; simpl; [reflexivity|].
  now rewrite Hq, IH.
Qed.

Lemma map_chars_idem (f : ascii -> ascii) (s : string) :
  (forall c, f (f c) = f c) -> map_chars f (map_chars f s) = map_chars f s.
Proof.
  intros Hf. induction s as [|c s IH]; simpl; [reflexivity|].
  now rewrite Hf, IH.
Qed.


(** ** [_getdict]: what it returns *)

Lemma prefix_colon (s : string) :
  prefix ":" s = match s with
                 | String c _ => Ascii.eqb c ":"
                 | EmptyString => false
                 end.
Proof.
  destruct s as [|c s]; [reflexivity|].
  change (prefix ":" (String c s))
    with (if ascii_dec ":" c then prefix "" s else false).
  destruct (ascii_dec ":" c) as [<-|Hne].
  - now destruct s.
  - symmetry. apply Ascii.eqb_neq. congruence.
Qed.

Lemma find_from_colon (key rest : string) (i : Z) :
  Py.contains ":" key = false ->
  Py.find_from ":" (key ++ String ":" rest) i
  = (i + Z.of_nat (String.length key))%Z.
Proof.
  revert i. induction key as [|c key IH]; intros i Hkey.
  - cbn [append Py.find_from]. rewrite prefix_colon. simpl. lia.
  - cbn [append Py.find_from String.length]. rewrite prefix_colon.
    cbn [Py.contains] in Hkey. rewrite prefix_colon in Hkey.
    apply orb_false_iff in Hkey as [Hc Hkey]. rewrite Hc.
    rewrite (IH _ Hkey). lia.
Qed.

Lemma find_from_none (s : string) (i : Z) :
  Py.contains ":" s = false -> Py.find_from ":" s i = (-1)%Z.
Proof.
  revert i. induction s as [|c s IH]; intros i Hs; [reflexivity|].
  cbn [Py.find_from]. cbn [Py.contains] in Hs.
  apply orb_false_iff in Hs as [Hc Hs]. rewrite Hc. now apply IH.
Qed.

Lemma find_from_some (s : string) (i : Z) :
  (0 <= i)%Z -> Py.contains ":" s = true -> (0 <= Py.find_from ":" s i)%Z.
Proof.
  revert i. induction s as [|c s IH]; intros i Hi Hs; [discriminate|].
  cbn [Py.find_from]. cbn [Py.contains] in Hs.
  destruct (prefix ":" (String c s)); [assumption|].
  apply IH; [lia | assumption].
Qed.

Lemma find_colon_iff (line : string) :
  Py.find ":" line <> (-1)%Z <-> Py.contains ":" line = true.
Proof.
  unfold Py.find. destruct (Py.contains ":" line) eqn:E.
  - pose proof (find_from_some line 0 ltac:(lia) E). split; [reflexivity|lia].
  - rewrite (find_from_none _ _ E). split; [congruence|discriminate].
Qed.

Lemma drop_length_append (a b : string) (n : nat) :
  Py.drop (String.length a + n) (a ++ b) = Py.drop n b.
Proof. induction a as [|c a IH]; simpl; [reflexivity | exact IH]. Qed.



Section GetDictSpec.
Context {V : Type} (apply : string -> result V) (f : string -> V).

Definition parsed (lines : list string) : list (string * V) :=
  map (fun line => (label line, f line)) (filter nonempty lines).

Lemma getdict_loop_spec (lines : list string) :
  (forall line, In line lines -> line <> "" ->
                apply (value_text line) = Ret (f line)) ->
  (forall line, In line lines -> line <> "" ->
                Py.contains ":" line = true) ->
  forall d,
    NoDup (map fst d ++ map label (filter nonempty lines)) ->
    for_each lines (getdict_body apply) d = Ret (d ++ parsed lines)%list.
Proof.
  unfold parsed.
  induction lines as [|line lines IH]; intros Happly Hcolon d Hnd.
  - simpl. now rewrite app_nil_r.
  - cbn [for_each]. unfold getdict_body at 1.
    destruct (String.eqb_spec line "") as [->|Hne].
    + cbn [bind filter nonempty String.eqb negb]. apply IH; auto.
      * intros l Hl. apply Happly. now right.
      * intros l Hl. apply Hcolon. now right.
    + assert (Hfind : Py.find ":" line <> (-1)%Z).
      { apply find_colon_iff, Hcolon; [now left | assumption]. }
      apply Z.eqb_neq in Hfind. rewrite Hfind. cbn [negb].
      fold (label line). fold (value_text line).
      assert (Efilter : filter nonempty (line :: lines)
                        = line :: filter nonempty lines).
      { cbn [filter]. unfold nonempty at 1.
        apply String.eqb_neq in Hne. now rewrite Hne. }
      rewrite Efilter in *. cbn [map] in *.
      assert (Hnew : dict_mem (label line) d = false).
      { destruct (dict_mem (label line) d) eqn:E; [|reflexivity].
        apply dict_mem_string in E. apply NoDup_remove_2 in Hnd.
        exfalso. apply Hnd. apply in_or_app. now left. }
      rewrite Hnew. cbn [negb].
      rewrite (Happly line (or_introl eq_refl) Hne). cbn [bind].
      rewrite (dict_set_new _ _ _ Hnew).
      rewrite IH.
      * now rewrite <- app_assoc.
      * intros l Hl. apply Happly. now right.
      * intros l Hl. apply Hcolon. now right.
      * rewrite map_app, <- app_assoc. exact Hnd.
Qed.

Lemma getdict_loop_colons (lines : list string) :
  forall d d',
    for_each lines (getdict_body apply) d = Ret d' ->
    forall line, In line lines -> line <> "" -> Py.contains ":" line = true.
Proof.
  induction lines as [|l lines IH]; simpl; intros d d' Hrun line Hin Hne;
    [contradiction|].
  apply bind_Ret in Hrun as (d1 & Hstep & Hrun).
  destruct Hin as [->|Hin]; [|eapply IH; eassumption].
  apply getdict_body_Ret in Hstep as [[-> _]|(_ & Hfind & _)];
    [contradiction|].
  now apply find_colon_iff.
Qed.


End GetDictSpec.


(** ** [_getdicts]: the swap of the two levels *)

Section DictFacts.
Context {K V : Type} `{Key K}.
Hypothesis key_eqb_eq : forall a b : K, key_eqb a b = true <-> a = b.

Lemma key_eqb_refl (k : K) : key_eqb k k = true.
Proof. now apply key_eqb_eq. Qed.

Lemma key_eqb_neq (a b : K) : a <> b -> key_eqb a b = false.
Proof.
  intros Hne. destruct (key_eqb a b) eqn:E; [|reflexivity].
  now apply key_eqb_eq in E.
Qed.

Lemma dict_get_set_same (k : K) (v : V) (d : list (K * V)) :
  dict_get k (dict_set k v d) = Some v.
Proof.
  induction d as [|[k' v'] d IH]; cbn [dict_set dict_get].
  - now rewrite key_eqb_refl.
  - destruct (key_eqb k' k) eqn:E; cbn [dict_get]; rewrite E;
      [reflexivity | exact IH].
Qed.

Lemma dict_get_set_other (k k' : K) (v : V) (d : list (K * V)) :
  k <> k' -> dict_get k (dict_set k' v d) = dict_get k d.
Proof.
  intros Hne. induction d as [|[k0 v0] d IH]; cbn [dict_set dict_get].
  - rewrite key_eqb_neq by congruence. reflexivity.
  - destruct (key_eqb k0 k') eqn:E; cbn [dict_get].
    + apply key_eqb_eq in E. subst k0.
      rewrite key_eqb_neq by congruence. reflexivity.
    + now rewrite IH.
Qed.

Lemma dict_get_None (k : K) (d : list (K * V)) :
  ~ In k (map fst d) -> dict_get k d = None.
Proof.
  induction d as [|[k' v'] d IH]; cbn [dict_get map fst]; [reflexivity|].
  intros Hnot. rewrite key_eqb_neq.
  - apply IH. intros Hin. apply Hnot. now right.
  - intros ->. apply Hnot. now left.
Qed.
End DictFacts.

(** [ds2[key][groupno]], if it is there. *)
Definition lookup2 {V : Type} (ds2 : list (string * list (Z * V)))
  (key : string) (groupno : Z) : option V :=
  match dict_get key ds2 with
  | Some inner => dict_get groupno inner
  | None => None
  end.

Section Transpose.
Context {V : Type}.

Lemma lookup2_set (ds2 : list (string * list (Z * V))) (key key' : string)
  (g g' : Z) (v : V) :
  lookup2 (ds2_set key' g' v ds2) key g
  = if String.eqb key key' && (g =? g')%Z then Some v
    else lookup2 ds2 key g.
Proof.
  unfold lookup2, ds2_set.
  destruct (String.eqb_spec key key') as [->|Hkey].
  - rewrite (dict_get_set_same String.eqb_eq).
    destruct (Z.eqb_spec g g') as [->|Hg]; cbn [andb].
    + apply (dict_get_set_same Z.eqb_eq).
    + rewrite (dict_get_set_other Z.eqb_eq) by assumption.
      now destruct (dict_get key' ds2).
  - cbn [andb]. now rewrite (dict_get_set_other String.eqb_eq) by assumption.
Qed.

(** The inner loop, over the items of one group. *)
Lemma inner_loop_lookup (g : Z) (d : list (string * V)) :
  NoDup (map fst d) ->
  forall ds2 key g',
    lookup2 (fold_left (fun ds2 (kv : string * V) =>
                          ds2_set (fst kv) g (snd kv) ds2) d ds2) key g'
    = if (g' =? g)%Z
      then match dict_get key d with
           | Some v => Some v
           | None => lookup2 ds2 key g'
           end
      else lookup2 ds2 key g'.
Proof.
  induction d as [|[k v] d IH]; intros Hnd ds2 key g'; cbn [fold_left].
  - cbn [dict_get]. now destruct (g' =? g)%Z.
  - inversion Hnd as [|? ? Hk Hnd']; subst. cbn [fst snd].
    rewrite (IH Hnd'), lookup2_set. cbn [dict_get].
    unfold key_eqb, Key_string.
    destruct (Z.eqb_spec g' g) as [->|Hg].
    + rewrite String.eqb_sym.
      destruct (String.eqb_spec k key) as [->|Hkey]; cbn [andb].
      * now rewrite (dict_get_None String.eqb_eq _ _ Hk).
      * reflexivity.
    + now rewrite andb_false_r.
Qed.

(** The outer loop, over the groups. *)
Lemma outer_loop_lookup (ds : list (Z * list (string * V))) :
  NoDup (map fst ds) ->
  (forall g d, In (g, d) ds -> NoDup (map fst d)) ->
  forall ds2 key g,
    lookup2 (fold_left
               (fun ds2 (item : Z * list (string * V)) =>
                  let '(groupno, d) := item in
                  fold_left (fun ds2 (kv : string * V) =>
                               ds2_set (fst kv) groupno (snd kv) ds2)
                    d ds2)
               ds ds2) key g
    = match dict_get g ds with
      | Some d => match dict_get key d with
                  | Some v => Some v
                  | None => lookup2 ds2 key g
                  end
      | None => lookup2 ds2 key g
      end.
Proof.
  induction ds as [|[g0 d0] ds IH]; intros Hnd Hkeys ds2 key g;
    cbn [fold_left]; [reflexivity|].
  inversion Hnd as [|? ? Hg0 Hnd']; subst.
  rewrite IH; [|assumption|intros g' d' Hin; apply (Hkeys g' d'); now right].
  cbn [dict_get]. unfold key_eqb, Key_Z.
  rewrite !inner_loop_lookup by (apply (Hkeys g0 d0); now left).
  destruct (Z.eqb_spec g0 g) as [->|Hg].
  - rewrite Z.eqb_refl, (dict_get_None Z.eqb_eq _ _ Hg0). reflexivity.
  - assert (E : (g =? g0)%Z = false) by (apply Z.eqb_neq; congruence).
    now rewrite E.
Qed.

Context (apply : string -> result V).

(** The first loop: group [i] is parsed and stored under the number
    [n0 + i]. *)
Lemma first_loop_groups (linegroups : list (list string)) :
  forall ds0 n0 ds n,
    (forall k, In k (map fst ds0) -> (k < n0)%Z) ->
    NoDup (map fst ds0) ->
    (forall g d, In (g, d) ds0 -> NoDup (map fst d)) ->
    for_each linegroups
      (fun (st : list (Z * list (string * V)) * Z) lines =>
         let '(ds, groupno) := st in
         d <- _getdict lines apply ;;
         Ret (dict_set groupno d ds, (groupno + 1)%Z))
      (ds0, n0) = Ret (ds, n) ->
    NoDup (map fst ds)
    /\ (forall g d, In (g, d) ds -> NoDup (map fst d))
    /\ (forall k, (k < n0)%Z -> dict_get k ds = dict_get k ds0)
    /\ (forall k, (n0 + Z.of_nat (List.length linegroups) <= k)%Z ->
                  dict_get k ds = None)
    /\ (forall i lines,
           nth_error linegroups i = Some lines ->
           exists d, _getdict lines apply = Ret d
                     /\ dict_get (n0 + Z.of_nat i)%Z ds = Some d).
Proof.
  induction linegroups as [|lines0 lgs IH];
    intros ds0 n0 ds n Hlt Hnd Hkeys Hrun.
  - cbn [for_each] in Hrun. injection Hrun as <- <-.
    split; [assumption|]. split; [assumption|]. split; [reflexivity|].
    split.
    + intros k Hk. apply (dict_get_None Z.eqb_eq). intros Hin.
      apply Hlt in Hin. simpl in Hk. lia.
    + intros i lines Hnth. now destruct i.
  - cbn [for_each] in Hrun. apply bind_Ret in Hrun as ([ds1 n1] & Hstep & Hrun).
    apply bind_Ret in Hstep as (d0 & Hd0 & Hstep). injection Hstep as <- <-.
    assert (Hfresh : ~ In n0 (map fst ds0)).
    { intros Hin. apply Hlt in Hin. lia. }
    assert (Hset : dict_set n0 d0 ds0 = (ds0 ++ [(n0, d0)])%list).
    { clear - Hfresh. induction ds0 as [|[k v] ds0 IH]; [reflexivity|].
      cbn [dict_set]. change (key_eqb k n0) with (k =? n0)%Z.
      destruct (Z.eqb_spec k n0) as [->|Hne].
      - exfalso. apply Hfresh. now left.
      - cbn [app]. rewrite IH; [reflexivity|].
        intros Hin. apply Hfresh. now right. }
    rewrite Hset in Hrun.
    pose proof (fun A B C => IH _ _ _ _ A B C Hrun) as IH'.
    destruct IH' as (H1 & H2 & H3 & H4 & H5).
    + intros k Hk. rewrite map_app in Hk. apply in_app_or in Hk as [Hk|Hk].
      * apply Hlt in Hk. lia.
      * destruct Hk as [<-|[]]. simpl. lia.
    + rewrite map_app. apply NoDup_app; [assumption| repeat constructor; easy|].
      intros k Hk [<-|[]]. contradiction.
    + intros g d Hin. apply in_app_or in Hin as [Hin|[[= <- <-]|[]]].
      * eapply Hkeys; eassumption.
      * eapply _getdict_keys_NoDup; eassumption.
    + split; [assumption|]. split; [assumption|]. split; [|split].
      * intros k Hk. rewrite H3 by lia. rewrite <- Hset.
        apply (dict_get_set_other Z.eqb_eq). lia.
      * intros k Hk. apply H4. cbn [List.length] in Hk. lia.
      * intros [|i] lines Hnth; cbn [nth_error] in Hnth.
        -- injection Hnth as <-. exists d0. split; [assumption|].
           rewrite Z.add_0_r, H3 by lia. rewrite <- Hset.
           apply (dict_get_set_same Z.eqb_eq).
        -- destruct (H5 i lines Hnth) as (d & Hd & Hget).
           exists d. split; [assumption|].
           now replace (n0 + Z.of_nat (S i))%Z with (n0 + 1 + Z.of_nat i)%Z
             by lia.
Qed.


End Transpose.


(** * Further properties of the session *)

(** ** The mime type *)

Lemma prefix_char (x : ascii) (s : string) :
  prefix (String x "") s = match s with
                           | String c _ => Ascii.eqb c x
                           | EmptyString => false
                           end.
Proof.
  destruct s as [|c s]; [reflexivity|].
  change (prefix (String x "") (String c s))
    with (if ascii_dec x c then prefix "" s else false).
  destruct (ascii_dec x c) as [<-|Hne].
  - rewrite Ascii.eqb_refl. now destruct s.
  - symmetry. apply Ascii.eqb_neq. congruence.
Qed.

Lemma find_from_char (x : ascii) (a rest : string) (i : Z) :
  Py.contains (String x "") a = false ->
  Py.find_from (String x "") (a ++ String x rest) i
  = (i + Z.of_nat (String.length a))%Z.
Proof.
  revert i. induction a as [|c a IH]; intros i Ha.
  - cbn [append Py.find_from]. rewrite prefix_char, Ascii.eqb_refl. simpl. lia.
  - cbn [append Py.find_from String.length]. rewrite prefix_char.
    cbn [Py.contains] in Ha. rewrite prefix_char in Ha.
    apply orb_false_iff in Ha as [Hc Ha]. rewrite Hc, (IH _ Ha). lia.
Qed.

Lemma find_from_absent (x : ascii) (s : string) (i : Z) :
  Py.contains (String x "") s = false ->
  Py.find_from (String x "") s i = (-1)%Z.
Proof.
  revert i. induction s as [|c s IH]; intros i Hs; [reflexivity|].
  cbn [Py.find_from]. cbn [Py.contains] in Hs.
  apply orb_false_iff in Hs as [Hc Hs]. rewrite Hc. now apply IH.
Qed.

Lemma lower_char_semicolon (c : ascii) :
  Ascii.eqb (Py.lower_char c) ";" = Ascii.eqb c ";".
Proof. destruct c as [[] [] [] [] [] [] [] []]; reflexivity. Qed.

Lemma contains_semicolon_lower (s : string) :
  Py.contains ";" (Py.lower s) = Py.contains ";" s.
Proof.
  induction s as [|c s IH]; [reflexivity|].
  cbn [Py.lower Py.contains]. rewrite !prefix_char, lower_char_semicolon.
  now rewrite IH.
Qed.

Lemma lower_append (a b : string) :
  Py.lower (a ++ b) = Py.lower a ++ Py.lower b.
Proof. induction a as [|c a IH]; simpl; [reflexivity | now rewrite IH]. Qed.



(** ** What the first answer leads to *)

Section FirstAnswer.
Context `{Numeric}.



End FirstAnswer.


Definition forbidden_world : world :=
  {| attempts := [Responds (html_response 403 no_sections_doc)];
     samples := []; system := "Linux"; trace := [] |}.

Definition forbidden_world_after : world :=
  {| attempts := []; samples := []; system := "Linux";
     trace := [LogFirstCall "get_fields_from_incident_url";
               LogExtractionFailed (incident_url example_row);
               PrintExc (HTTPError 403)] |}.


(** ** Transport errors *)

Section TransportErrors.
Context `{Numeric}.


End TransportErrors.


(** ** What [_get] keeps *)

Section GetInvariants.
Context `{Numeric}.

(** The attempts that [_get] leaves behind it and goes on: calls of
    [scraper.get] that raised an exception that is retried. *)
Definition passed_over (system : string) (a : attempt) : Prop :=
  exists exc, a = Fails exc /\ retried system exc = true.


(** The scenario of retries that the code does carry out: after [k]
    timeouts, a page of status below 400 and an HTML mime type gives its
    record, after [k] waits computed, logged and slept. *)
Fixpoint timeout_events (url : string) (waits : list Z) : list event :=
  match waits with
  | wait :: waits' =>
      [LogFirstCall "_compute_wait";
       LogRetry url (StatusTag "<timed out>") wait; Sleep wait]
      ++ timeout_events url waits'
  | [] => []
  end%list.

Lemma _get_after_timeouts (url : string) (average_wait rng_base : Z)
  (a : attempt) (rest : list attempt) (zrest : list float) (sys : string) :
  forall (zs : list float) (waits : list Z) (tr : list event),
    Forall2 (fun z wait => wait_of_sample average_wait rng_base z = Ret wait)
      zs waits ->
    _get url average_wait rng_base
      {| attempts := (map (fun _ => Fails TimeoutError) zs ++ a :: rest)%list;
         samples := (zs ++ zrest)%list; system := sys; trace := tr |}
    = _get url average_wait rng_base
        {| attempts := a :: rest; samples := zrest; system := sys;
           trace := (tr ++ timeout_events url waits)%list |}.
Proof.
  induction zs as [|z zs IH]; intros waits tr Hwaits.
  - inversion Hwaits; subst. simpl. now rewrite app_nil_r.
  - inversion Hwaits as [|? wait ? waits' Hw Hws]; subst.
    cbn [map app].
    rewrite (_get_transport_error_retried url average_wait rng_base
               TimeoutError _ _ _ sys _ wait eq_refl Hw).
    rewrite (IH waits' _ Hws). cbn [timeout_events status_tag].
    now rewrite <- app_assoc.
Qed.


End GetInvariants.



(** * Further properties of the sections *)

(** ** The paragraph of the Guns Involved section *)

Lemma digits_plain (s : string) (acc : Z) :
  Py.all_chars Py.is_digit s = true ->
  s <> "" ->
  Py.digits_with_underscores s false acc = Some (Py.digits_value s acc).
Proof.
  intros Hs Hne.
  assert (Hgen : forall t b a, Py.all_chars Py.is_digit t = true ->
                               (t <> "" \/ b = true) ->
                               Py.digits_with_underscores t b a
                               = Some (Py.digits_value t a)).
  { clear. induction t as [|c t IH]; intros b a Ht Hb.
    - destruct Hb as [Hb| ->]; [contradiction | reflexivity].
    - cbn [Py.all_chars] in Ht. apply andb_true_iff in Ht as [Hc Ht].
      cbn [Py.digits_with_underscores Py.digits_value]. rewrite Hc.
      apply IH; auto. }
  apply Hgen; auto.
Qed.

Lemma strip_digits (s : string) :
  Py.all_chars Py.is_digit s = true -> Py.number_strip s = s.
Proof.
  intros Hs. unfold Py.number_strip.
  assert (Hl : Py.number_lstrip s = s).
  { destruct s as [|c s]; [reflexivity|]. cbn [Py.number_lstrip].
    cbn [Py.all_chars] in Hs. apply andb_true_iff in Hs as [Hc _].
    destruct c as [[] [] [] [] [] [] [] []]; try discriminate Hc; reflexivity. }
  rewrite Hl. induction s as [|c s IH]; [reflexivity|].
  cbn [Py.all_chars] in Hs. apply andb_true_iff in Hs as [Hc Hs].
  cbn [Py.number_rstrip]. rewrite IH.
  - destruct s; [|reflexivity].
    destruct c as [[] [] [] [] [] [] [] []]; try discriminate Hc; reflexivity.
  - assumption.
  - destruct s as [|c' s]; [reflexivity|]. cbn [Py.number_lstrip].
    cbn [Py.all_chars] in Hs. apply andb_true_iff in Hs as [Hc' _].
    destruct c' as [[] [] [] [] [] [] [] []]; try discriminate Hc';
      reflexivity.
Qed.

(** [int] of a run of digits is its decimal value. *)
Lemma count_digits_length (s : string) :
  Py.all_chars Py.is_digit s = true ->
  Py.count_digits s = Z.of_nat (String.length s).
Proof.
  induction s as [|c s IH]; intros Hs; [reflexivity|].
  cbn [Py.all_chars] in Hs. apply andb_true_iff in Hs as [Hc Hs].
  cbn [Py.count_digits String.length]. rewrite Hc, (IH Hs). lia.
Qed.

Lemma int_digits (s : string) :
  Py.all_chars Py.is_digit s = true ->
  s <> "" ->
  (String.length s <= 4300)%nat ->
  Py.int s = Ret (Py.digits_value s 0).
Proof.
  intros Hs Hne Hlen. unfold Py.int. rewrite (strip_digits s Hs).
  pose proof (count_digits_length s Hs) as Hcount.
  destruct s as [|c s]; [contradiction|].
  assert (Hsign : match String c s with
                  | String "-" u => (true, u)
                  | String "+" u => (false, u)
                  | _ => (false, String c s)
                  end = (false, String c s)).
  { cbn [Py.all_chars] in Hs. apply andb_true_iff in Hs as [Hc _].
    destruct c as [[] [] [] [] [] [] [] []]; try discriminate Hc; reflexivity. }
  rewrite Hsign, (digits_plain _ 0 Hs Hne), Hcount.
  unfold Py.int_max_str_digits.
  destruct (Z.ltb_spec 4300 (Z.of_nat (String.length (String c s))))
    as [Hgt|_]; [lia | reflexivity].
Qed.

(** [int] refuses a run of more digits than the interpreter converts. *)
Lemma int_digits_too_many (s : string) :
  Py.all_chars Py.is_digit s = true ->
  (4300 < String.length s)%nat ->
  Py.int s = Raise ValueError.
Proof.
  intros Hs Hlen. unfold Py.int. rewrite (strip_digits s Hs).
  pose proof (count_digits_length s Hs) as Hcount.
  destruct s as [|c s]; [cbn in Hlen; lia|].
  assert (Hsign : match String c s with
                  | String "-" u => (true, u)
                  | String "+" u => (false, u)
                  | _ => (false, String c s)
                  end = (false, String c s)).
  { cbn [Py.all_chars] in Hs. apply andb_true_iff in Hs as [Hc _].
    destruct c as [[] [] [] [] [] [] [] []]; try discriminate Hc; reflexivity. }
  rewrite Hsign, (digits_plain _ 0 Hs) by discriminate. rewrite Hcount.
  unfold Py.int_max_str_digits.
  destruct (Z.ltb_spec 4300 (Z.of_nat (String.length (String c s))))
    as [_|Hle]; [reflexivity | lia].
Qed.

(** The sentences that the pattern is written for. *)
Definition guns_sentence (digits : string) (plural : bool) (last : ascii)
  : string :=
  digits ++ " gun" ++ (if plural then "s" else "") ++ " involved"
  ++ String last "".



(** ** The Sources section *)

(** The links that are kept: those whose text is their own target. *)
Definition cited (links : list anchor) : list string :=
  flat_map (fun a => match a_href a with
                     | Some href =>
                         if String.eqb (a_text a) href then [href] else []
                     | None => []
                     end) links.

Lemma for_yield_Ret_all {A B : Type} (body : A -> result (list B))
  (xs : list A) (out : list B) :
  for_yield xs body = Ret out ->
  forall x, In x xs -> exists ys, body x = Ret ys.
Proof.
  revert out. induction xs as [|x xs IH]; simpl; intros out Hrun y Hy;
    [contradiction|].
  apply bind_Ret in Hrun as (ys & Hx & Hrun).
  apply bind_Ret in Hrun as (zs & Hxs & _).
  destruct Hy as [<-|Hy]; [eauto | eapply IH; eassumption].
Qed.


Definition sources_div : div :=
  {| spans := []; uls := []; lis := []; p := None;
     anchors := [{| a_text := "http://a.example/1";
                    a_href := Some "http://a.example/1" |};
                 {| a_text := "View source";
                    a_href := Some "http://b.example" |}];
     brs := [] |}.

Definition sources_doc : soup :=
  {| block_system_main := Some [("Sources", sources_div)] |}.


(** ** A Geolocation line that is not made of numbers *)

Section GeolocationErrors.
Context `{Numeric}.


End GeolocationErrors.


(** ** Group numbers as keys *)

Lemma contains_needs_first (x : ascii) (sub s : string) :
  Py.all_chars (fun c => negb (Ascii.eqb c x)) s = true ->
  Py.contains (String x sub) s = false.
Proof.
  induction s as [|c s IH]; [reflexivity|].
  cbn [Py.all_chars Py.contains]. intros Hs.
  apply andb_true_iff in Hs as [Hc Hs]. rewrite (IH Hs), orb_false_r.
  change (prefix (String x sub) (String c s))
    with (if ascii_dec x c then prefix sub s else false).
  destruct (ascii_dec x c) as [<-|Hne]; [|reflexivity].
  now rewrite Ascii.eqb_refl in Hc.
Qed.

Definition digit_or_minus (c : ascii) : bool :=
  Py.is_digit c || Ascii.eqb c "-".

Lemma digit_char (n : Z) :
  Py.is_digit (ascii_of_nat (48 + Z.to_nat (n mod 10))) = true.
Proof.
  pose proof (Z.mod_pos_bound n 10 ltac:(lia)) as Hm.
  unfold Py.is_digit. rewrite nat_ascii_embedding by lia.
  apply andb_true_iff. split; apply Nat.leb_le; lia.
Qed.

Lemma pos_digits_chars (fuel : nat) :
  forall n acc,
    Py.all_chars digit_or_minus acc = true ->
    Py.all_chars digit_or_minus (Py.pos_digits fuel n acc) = true.
Proof.
  induction fuel as [|fuel IH]; intros n acc Hacc; [assumption|].
  cbn [Py.pos_digits].
  assert (Hacc' : Py.all_chars digit_or_minus
                    (String (ascii_of_nat (48 + Z.to_nat (n mod 10))) acc)
                  = true).
  { cbn [Py.all_chars]. unfold digit_or_minus at 1.
    now rewrite digit_char, Hacc. }
  destruct (n <? 10)%Z; [assumption | now apply IH].
Qed.

Lemma str_int_chars (n : Z) :
  Py.all_chars digit_or_minus (Py.str_int n) = true.
Proof.
  unfold Py.str_int. destruct (n <? 0)%Z.
  - cbn [Py.all_chars]. now rewrite pos_digits_chars.
  - now apply pos_digits_chars.
Qed.

Lemma str_int_no_separator (n : Z) :
  has_separator "::" "||" (str n) = false.
Proof.
  unfold has_separator, str, Str_Z.
  rewrite !contains_needs_first; [reflexivity| |];
    (eapply all_chars_weaken; [|apply str_int_chars]);
    intros c Hc; unfold digit_or_minus in Hc;
    destruct c as [[] [] [] [] [] [] [] []]; try discriminate Hc;
    reflexivity.
Qed.


(** ** The Participants section *)

(** The value of an attribute field: what the groups have under the label,
    each after the number of its group. *)
Definition attribute_value (values : list (Z * string)) : string :=
  Py.join "||" (map (fun kv => Py.str_int (fst kv) ++ "::" ++ snd kv) values).

Definition attribute_field (pre : string)
  (item : string * list (Z * string)) : Field :=
  mkField (_out_name (fst item) pre) (VStr (attribute_value (snd item))).

(** The generator over the transposed mapping: one field per label while
    no value holds a separator, the assertion error at the first that
    does. *)
Lemma attribute_loop (pre : string) (ds2 : list (string * list (Z * string))) :
  ((forall item kv, In item ds2 -> In kv (snd item) ->
                    has_separator "::" "||" (snd kv) = false)
   /\ for_yield ds2
        (fun item =>
           let field_name := _out_name (fst item) pre in
           field_values <- _stringify_dict (snd item) "::" "||" ;;
           Ret [mkField field_name (VStr field_values)])
      = Ret (map (attribute_field pre) ds2))
  \/ ((exists item kv, In item ds2 /\ In kv (snd item)
                       /\ has_separator "::" "||" (snd kv) = true)
      /\ for_yield ds2
           (fun item =>
              let field_name := _out_name (fst item) pre in
              field_values <- _stringify_dict (snd item) "::" "||" ;;
              Ret [mkField field_name (VStr field_values)])
         = Raise AssertionError).
Proof.
  induction ds2 as [|item ds2 IH].
  - left. split; [intros item kv []|reflexivity].
  - cbn [for_yield]. cbv zeta.
    destruct (_stringify_dict_cases (snd item) "::" "||")
      as [[(kv & Hin & Hbad) E]|[Hall E]]; rewrite E; cbn [bind].
    + right. split; [|reflexivity].
      destruct Hbad as [Hk|Hv]; [now rewrite str_int_no_separator in Hk|].
      exists item, kv. split; [now left|]. now split.
    + destruct IH as [[Hfine IH]|[(item' & kv & Hitem & Hkv & Hbad) IH]];
        cbv zeta in IH; rewrite IH; cbn [bind].
      * left. split; [|reflexivity].
        intros item' kv [<-|Hitem] Hkv; [|now apply (Hfine item' kv)].
        now destruct (Hall kv Hkv).
      * right. split; [|reflexivity].
        exists item', kv. split; [now right|]. now split.
Qed.


Definition participants_div : div :=
  {| spans := [];
     uls := [["Type: Victim"; "Name: Ann Lee"; "Age Group: Adult 18+"];
             ["Type: Subject-Suspect"; "Age Group: Teen 12-17"]];
     lis := []; p := None; anchors := []; brs := [] |}.

Definition participants_doc : soup :=
  {| block_system_main := Some [("Participants", participants_div)] |}.


(** Two different elements with the same image leave a repetition among
    the images. *)
Lemma same_image_not_NoDup {A B : Type} (f : A -> B) (l : list A) (x y : A) :
  In x l -> In y l -> x <> y -> f x = f y -> ~ NoDup (map f l).
Proof.
  induction l as [|a l IH]; intros Hx Hy Hne Hf Hnd; [contradiction|].
  cbn [map] in Hnd. inversion Hnd as [|? ? Hnotin Hnd']; subst.
  destruct Hx as [->|Hx], Hy as [->|Hy].
  - now apply Hne.
  - apply Hnotin. rewrite Hf. now apply in_map.
  - apply Hnotin. rewrite <- Hf. now apply in_map.
  - now apply (IH Hx Hy Hne Hf).
Qed.

Section LabelCollision.
Context `{Numeric}.


End LabelCollision.

Definition two_ages_div : div :=
  {| spans := []; uls := [["Age: 20"]; ["age: 31"]];
     lis := []; p := None; anchors := []; brs := [] |}.

Definition two_ages_doc : soup :=
  {| block_system_main := Some [("Participants", two_ages_div)] |}.


(** ** The District section *)

(** The lines of the District section: the texts before the [br] elements,
    stripped. *)
Definition district_lines (d : div) : list string := map Py.strip (brs d).


Definition district_div : div :=
  {| spans := []; uls := []; lis := []; p := None; anchors := [];
     brs := ["  Congressional District: 7 "; " ";
             "State Senate District: 21"] |}.

Definition district_doc : soup :=
  {| block_system_main := Some [("District", district_div)] |}.

